(** * ClickableRequires: node-style module resolution of [plugin.py]

    A shallow embedding of the resolution functions of [plugin.py]
    ([find_module], [find_require_module], [find_import_module],
    [load_as_file], [load_as_directory], [load_index], [load_node_modules],
    [node_modules_paths], [split_path], [returnIfFile]) together with the
    part of Python's [os.path] they call: the POSIX flavour, [posixpath],
    throughout, and for [split_path] also the Windows flavour, [ntpath],
    where paths have drives.  Of the editor commands and listeners of the
    plugin, what does not depend on the text of the view is modelled too:
    what [open_module_file] and the links of the popup open, the flag of
    the fold command, and the cache of regions.

    Python [str] values are lists of characters.  The file system is only
    read: every probe ([os.path.isfile]) and every [open] is recorded in a
    trace, and an exception is an outcome of its own.  The calls to [log],
    which print when the [debug] setting is on and do nothing else, are
    left out. *)

From Stdlib Require Import Ascii String Bool Arith Lia List.
From Stdlib Require Import FunInd Recdef.
Import ListNotations.

Set Implicit Arguments.
Set Warnings "-register-all".
Open Scope string_scope.
Open Scope list_scope.

(* ------------------------------------------------------------------ *)
(** ** Python strings *)

Module PyStr.

Abbreviation str := (list ascii).

(** A string literal of the source. *)
Definition lit (s : string) : str := list_ascii_of_string s.

Fixpoint eqb (a b : str) : bool :=
  match a, b with
  | [], [] => true
  | x :: a', y :: b' => Ascii.eqb x y && eqb a' b'
  | _, _ => false
  end.

(** [not s] for a string: the empty string is falsy. *)
Definition is_empty (s : str) : bool :=
  match s with [] => true | _ :: _ => false end.

(** [s.startswith(prefix)] *)
Fixpoint startswith (s prefix : str) : bool :=
  match prefix, s with
  | [], _ => true
  | p :: prefix', c :: s' => Ascii.eqb c p && startswith s' prefix'
  | _ :: _, [] => false
  end.

(** [s.endswith(suffix)] *)
Definition endswith (s suffix : str) : bool :=
  startswith (rev s) (rev suffix).

(** [s.split(c)] for a one-character separator [c]: never the empty list. *)
Fixpoint split_on (c : ascii) (s : str) : list str :=
  match s with
  | [] => [[]]
  | x :: r =>
      if Ascii.eqb x c then [] :: split_on c r
      else match split_on c r with
           | h :: t => (x :: h) :: t
           | [] => [[x]]
           end
  end.

(** [sep.join(l)] *)
Fixpoint join_with (sep : str) (l : list str) : str :=
  match l with
  | [] => []
  | [a] => a
  | a :: r => a ++ sep ++ join_with sep r
  end.

Fixpoint dropwhile (f : ascii -> bool) (s : str) : str :=
  match s with
  | [] => []
  | x :: r => if f x then dropwhile f r else s
  end.

(** [s.rstrip(c)] for a one-character set [c]. *)
Definition rstrip (c : ascii) (s : str) : str :=
  rev (dropwhile (Ascii.eqb c) (rev s)).

(** [s.rfind(c) + 1]: the index just after the last [c], [0] when [s] has
    no [c] ([rfind] returns [-1] then). *)
Fixpoint rfind1 (c : ascii) (s : str) : nat :=
  match s with
  | [] => 0
  | x :: r =>
      match rfind1 c r with
      | 0 => if Ascii.eqb x c then 1 else 0
      | S k => S (S k)
      end
  end.

End PyStr.

Import PyStr.
Coercion lit : string >-> list.

(* ------------------------------------------------------------------ *)
(** ** [os.path] on a POSIX platform ([posixpath]) *)

Module posixpath.

Definition sepc : ascii := "/"%char.
Definition sep : str := [sepc].

(** [os.path.splitdrive]: POSIX paths have no drive. *)
Definition splitdrive (p : str) : str * str := ([], p).

(** [os.path.split]:
<<
    i = p.rfind(sep) + 1
    head, tail = p[:i], p[i:]
    if head and head != sep*len(head):
        head = head.rstrip(sep)
    return head, tail
>> *)
Definition split (p : str) : str * str :=
  let i := rfind1 sepc p in
  let head := firstn i p in
  let tail := skipn i p in
  let head :=
    if negb (is_empty head) && negb (eqb head (repeat sepc (length head)))
    then rstrip sepc head else head in
  (head, tail).

(** One turn of the loop of [os.path.join(a, *p)]:
<<
    if b.startswith(sep): path = b
    elif not path or path.endswith(sep): path += b
    else: path += sep + b
>> *)
Definition join_step (path b : str) : str :=
  if startswith b sep then b
  else if is_empty path || endswith path sep then path ++ b
  else path ++ sep ++ b.

Definition join (a : str) (p : list str) : str := fold_left join_step p a.

(** [os.path.join( *parts )] for a non-empty argument list. *)
Definition join_all (parts : list str) : str :=
  match parts with
  | [] => []
  | a :: p => join a p
  end.

(** The number of leading slashes [normpath] keeps: POSIX allows exactly
    two leading slashes to be kept, three or more collapse to one. *)
Definition initial_slashes (path : str) : nat :=
  if startswith path sep then
    if startswith path (sep ++ sep) && negb (startswith path (sep ++ sep ++ sep))
    then 2 else 1
  else 0.

(** The body of the loop of [os.path.normpath] over the components:
<<
    if comp in (empty, dot): continue
    if (comp != dotdot or (not initial_slashes and not new_comps) or
         (new_comps and new_comps[-1] == dotdot)):
        new_comps.append(comp)
    elif new_comps:
        new_comps.pop()
>> *)
Definition norm_step (k : nat) (new_comps : list str) (comp : str) : list str :=
  if eqb comp [] || eqb comp (lit ".") then new_comps
  else if negb (eqb comp (lit ".."))
          || (Nat.eqb k 0 && match new_comps with [] => true | _ => false end)
          || (match new_comps with [] => false | _ => true end
              && eqb (last new_comps []) (lit ".."))
       then new_comps ++ [comp]
       else removelast new_comps.

(** [os.path.normpath] *)
Definition normpath (path : str) : str :=
  if is_empty path then lit "." else
  let k := initial_slashes path in
  let comps := fold_left (norm_step k) (split_on sepc path) [] in
  let path := repeat sepc k ++ join_with sep comps in
  if is_empty path then lit "." else path.

End posixpath.

(* ------------------------------------------------------------------ *)
(** ** [os.path] on Windows ([ntpath]) *)

(** The four functions [split_path] and [node_modules_paths] call, as the
    Python source of [ntpath] has them (CPython 3.11). *)
Module ntpath.

Definition sepc : ascii := "\"%char.
Definition altsepc : ascii := "/"%char.
Definition colonc : ascii := ":"%char.
Definition sep : str := [sepc].

(** [c in seps], for [seps = '\\/'] *)
Definition is_sep (c : ascii) : bool := Ascii.eqb c sepc || Ascii.eqb c altsepc.

(** [p.replace(altsep, sep)] *)
Definition replace_altsep (p : str) : str :=
  map (fun c => if Ascii.eqb c altsepc then sepc else c) p.

(** The index of the first [c] in [s]. *)
Fixpoint index (c : ascii) (s : str) : option nat :=
  match s with
  | [] => None
  | x :: r => if Ascii.eqb x c then Some 0 else option_map S (index c r)
  end.

(** [s.find(c, start)], with [None] for [-1]. *)
Definition find (c : ascii) (s : str) (start : nat) : option nat :=
  option_map (Nat.add start) (index c (skipn start s)).

(** [s.upper()] and [s.lower()] on the letters of Latin-1.  The three
    characters of Latin-1 whose upper-case form lies outside of it are
    left alone by [upper], which is only compared with [unc_prefix]: their
    upper-case forms hold none of its characters. *)
Definition upper_char (c : ascii) : ascii :=
  let n := nat_of_ascii c in
  if (Nat.leb 97 n && Nat.leb n 122)
     || (Nat.leb 224 n && Nat.leb n 254 && negb (Nat.eqb n 247))
  then ascii_of_nat (n - 32) else c.

Definition lower_char (c : ascii) : ascii :=
  let n := nat_of_ascii c in
  if (Nat.leb 65 n && Nat.leb n 90)
     || (Nat.leb 192 n && Nat.leb n 222 && negb (Nat.eqb n 215))
  then ascii_of_nat (n + 32) else c.

Definition upper (s : str) : str := map upper_char s.
Definition lower (s : str) : str := map lower_char s.

Definition unc_prefix : str := lit "\\?\UNC\".

(** [os.path.splitdrive]:
<<
    if len(p) >= 2:
        normp = p.replace(altsep, sep)
        if normp[0:2] == sep * 2:
            start = 8 if normp[:8].upper() == unc_prefix else 2
            index = normp.find(sep, start)
            if index == -1:
                return p, p[:0]
            index2 = normp.find(sep, index + 1)
            if index2 == -1:
                return p, p[:0]
            return p[:index2], p[index2:]
        if normp[1:2] == colon:
            return p[:2], p[2:]
    return p[:0], p
>> *)
Definition splitdrive (p : str) : str * str :=
  if Nat.leb 2 (length p) then
    let normp := replace_altsep p in
    if eqb (firstn 2 normp) (sep ++ sep) then
      let start := if eqb (upper (firstn 8 normp)) unc_prefix then 8 else 2 in
      match find sepc normp start with
      | None => (p, [])
      | Some index =>
          match find sepc normp (index + 1) with
          | None => (p, [])
          | Some index2 => (firstn index2 p, skipn index2 p)
          end
      end
    else if eqb (firstn 1 (skipn 1 normp)) [colonc] then (firstn 2 p, skipn 2 p)
    else ([], p)
  else ([], p).

(** The index beyond the last separator of [p]:
<<
    i = len(p)
    while i and p[i-1] not in seps:
        i -= 1
>> *)
Fixpoint after_last_sep (p : str) : nat :=
  match p with
  | [] => 0
  | x :: r =>
      match after_last_sep r with
      | 0 => if is_sep x then 1 else 0
      | S k => S (S k)
      end
  end.

(** [s.rstrip(seps)] *)
Definition rstrip_seps (s : str) : str := rev (dropwhile is_sep (rev s)).

(** [os.path.split]:
<<
    d, p = splitdrive(p)
    i = len(p)
    while i and p[i-1] not in seps:
        i -= 1
    head, tail = p[:i], p[i:]
    head = head.rstrip(seps) or head
    return d + head, tail
>> *)
Definition split (p : str) : str * str :=
  let '(d, p) := splitdrive p in
  let i := after_last_sep p in
  let head := firstn i p in
  let tail := skipn i p in
  let head := if is_empty (rstrip_seps head) then head else rstrip_seps head in
  (d ++ head, tail).

(** [p_path and p_path[0] in seps] *)
Definition rooted (p_path : str) : bool :=
  match p_path with
  | [] => false
  | c :: _ => is_sep c
  end.

(** The last lines of the loop of [os.path.join]:
<<
    if result_path and result_path[-1] not in seps:
        result_path = result_path + sep
    result_path = result_path + p_path
>> *)
Definition extend (result_path p_path : str) : str :=
  (if negb (is_empty result_path) && negb (is_sep (last result_path sepc))
   then result_path ++ sep else result_path) ++ p_path.

(** One turn of the loop of [os.path.join(path, *paths)], on the pair
    [(result_drive, result_path)]:
<<
    p_drive, p_path = splitdrive(p)
    if p_path and p_path[0] in seps:
        if p_drive or not result_drive:
            result_drive = p_drive
        result_path = p_path
        continue
    elif p_drive and p_drive != result_drive:
        if p_drive.lower() != result_drive.lower():
            result_drive = p_drive
            result_path = p_path
            continue
        result_drive = p_drive
    if result_path and result_path[-1] not in seps:
        result_path = result_path + sep
    result_path = result_path + p_path
>> *)
Definition join_step (st : str * str) (p : str) : str * str :=
  let '(result_drive, result_path) := st in
  let '(p_drive, p_path) := splitdrive p in
  if rooted p_path then
    (if negb (is_empty p_drive) || is_empty result_drive then p_drive else result_drive,
     p_path)
  else if negb (is_empty p_drive) && negb (eqb p_drive result_drive) then
    if negb (eqb (lower p_drive) (lower result_drive)) then (p_drive, p_path)
    else (p_drive, extend result_path p_path)
  else (result_drive, extend result_path p_path).

(** [os.path.join]: the loop, and then
<<
    if (result_path and result_path[0] not in seps and
        result_drive and result_drive[-1:] != colon):
        return result_drive + sep + result_path
    return result_drive + result_path
>> *)
Definition join (path : str) (paths : list str) : str :=
  let '(result_drive, result_path) := fold_left join_step paths (splitdrive path) in
  if negb (is_empty result_path) && negb (rooted result_path)
     && negb (is_empty result_drive) && negb (endswith result_drive [colonc])
  then result_drive ++ sep ++ result_path
  else result_drive ++ result_path.

(** [os.path.join( *parts )] for a non-empty argument list. *)
Definition join_all (parts : list str) : str :=
  match parts with
  | [] => []
  | a :: p => join a p
  end.

(** The body of the loop of [os.path.normpath], with the components
    before the index [i] as [comps] and the one at [i] as [comp]:
<<
    if not comps[i] or comps[i] == curdir:
        del comps[i]
    elif comps[i] == pardir:
        if i > 0 and comps[i-1] != pardir:
            del comps[i-1:i+1]
            i -= 1
        elif i == 0 and prefix.endswith(sep):
            del comps[i]
        else:
            i += 1
    else:
        i += 1
>> *)
Definition norm_step (prefix : str) (comps : list str) (comp : str) : list str :=
  if is_empty comp || eqb comp (lit ".") then comps
  else if eqb comp (lit "..") then
    match comps with
    | _ :: _ =>
        if negb (eqb (last comps []) (lit "..")) then removelast comps
        else comps ++ [comp]
    | [] => if endswith prefix sep then comps else comps ++ [comp]
    end
  else comps ++ [comp].

(** [os.path.normpath]:
<<
    path = path.replace(altsep, sep)
    prefix, path = splitdrive(path)
    if path.startswith(sep):
        prefix += sep
        path = path.lstrip(sep)
    comps = path.split(sep)
    ...
    if not prefix and not comps:
        comps.append(curdir)
    return prefix + sep.join(comps)
>> *)
Definition normpath (path : str) : str :=
  let path := replace_altsep path in
  let '(prefix, path) := splitdrive path in
  let '(prefix, path) :=
    if startswith path sep
    then (prefix ++ sep, dropwhile (fun c => Ascii.eqb c sepc) path)
    else (prefix, path) in
  let comps := fold_left (norm_step prefix) (split_on sepc path) [] in
  let comps :=
    if is_empty prefix && match comps with [] => true | _ => false end
    then [lit "."] else comps in
  prefix ++ join_with sep comps.

End ntpath.

(* ------------------------------------------------------------------ *)
(** ** [split_path] *)

Lemma posix_split_shorter (p : str) :
  snd (posixpath.split p) <> [] ->
  length (fst (posixpath.split p)) < length p.
Proof.
  unfold posixpath.split; cbn [fst snd]; intros Htail.
  set (i := rfind1 posixpath.sepc p) in *.
  assert (Hi : i < length p).
  { destruct (Nat.lt_ge_cases i (length p)) as [H | H]; [exact H |].
    exfalso; apply Htail, skipn_all2; exact H. }
  assert (Hh : length (firstn i p) = i) by (rewrite length_firstn; lia).
  destruct (negb _ && negb _).
  - unfold rstrip. rewrite length_rev.
    assert (Hd : forall f s, length (dropwhile f s) <= length s).
    { intros f s; induction s as [| x r IH]; cbn; [lia |].
      destruct (f x); cbn; lia. }
    specialize (Hd (Ascii.eqb posixpath.sepc) (rev (firstn i p))).
    rewrite length_rev in Hd. lia.
  - lia.
Qed.

(** The loop of [split_path], which peels one folder off [path] per turn:
<<
    while 1:
      path, folder = os.path.split(path)
      if folder != "":
        folders.append(folder)
      else:
        if path != "":
          folders.append(path)
        break
>>
    It runs on the length of [path], which every turn but the last makes
    shorter. *)
Function split_path_loop (path : str) (folders : list str)
    {measure length path} : list str :=
  match posixpath.split path with
  | (path', folder) =>
      match folder with
      | [] => if is_empty path' then folders else folders ++ [path']
      | _ :: _ => split_path_loop path' (folders ++ [folder])
      end
  end.
Proof.
  intros path folders path' folder c r Hfolder Hsplit.
  pose proof (posix_split_shorter path) as H.
  rewrite Hsplit in H. cbn [fst snd] in H. apply H. discriminate.
Defined.

(** [split_path(start)]: the segments of the normalised path, the root (or
    the drive) first. *)
Definition split_path (start : str) : list str :=
  let path := posixpath.normpath start in
  let '(drive, path_and_file) := posixpath.splitdrive path in
  let '(path, file) := posixpath.split path_and_file in
  let folders := split_path_loop path [file] in
  let parts := rev folders in
  if is_empty drive then parts else drive :: parts.

(* ------------------------------------------------------------------ *)
(** ** [split_path] on Windows *)

Lemma ntpath_splitdrive_length (p : str) :
  length (fst (ntpath.splitdrive p)) + length (snd (ntpath.splitdrive p)) = length p.
Proof.
  assert (H : forall n, length (firstn n p) + length (skipn n p) = length p).
  { intros n. rewrite <- length_app, firstn_skipn. reflexivity. }
  unfold ntpath.splitdrive.
  destruct (Nat.leb 2 (length p)); [| reflexivity].
  destruct (eqb _ (ntpath.sep ++ ntpath.sep)).
  - destruct (ntpath.find _ _ _) as [index |]; [| cbn; lia].
    destruct (ntpath.find _ _ _) as [index2 |]; [apply H | cbn; lia].
  - destruct (eqb _ [ntpath.colonc]); [apply H | reflexivity].
Qed.

Lemma ntpath_split_shorter (p : str) :
  snd (ntpath.split p) <> [] ->
  length (fst (ntpath.split p)) < length p.
Proof.
  unfold ntpath.split. pose proof (ntpath_splitdrive_length p) as Hd.
  destruct (ntpath.splitdrive p) as [d q]. cbn [fst snd] in *. intros Htail.
  set (i := ntpath.after_last_sep q) in *.
  assert (Hi : i < length q).
  { destruct (Nat.lt_ge_cases i (length q)) as [H | H]; [exact H |].
    exfalso; apply Htail, skipn_all2; exact H. }
  assert (Hh : length (firstn i q) = i) by (rewrite length_firstn; lia).
  assert (Hr : length (ntpath.rstrip_seps (firstn i q)) <= i).
  { unfold ntpath.rstrip_seps. rewrite length_rev.
    assert (Hw : forall f s, length (dropwhile f s) <= length s).
    { intros f s; induction s as [| x r IH]; cbn; [lia |].
      destruct (f x); cbn; lia. }
    specialize (Hw ntpath.is_sep (rev (firstn i q))).
    rewrite length_rev in Hw. lia. }
  rewrite length_app. destruct (is_empty _); lia.
Qed.

Module Windows.

(** The loop of [split_path], with [os.path.split] that of [ntpath]. *)
Function split_path_loop (path : str) (folders : list str)
    {measure length path} : list str :=
  match ntpath.split path with
  | (path', folder) =>
      match folder with
      | [] => if is_empty path' then folders else folders ++ [path']
      | _ :: _ => split_path_loop path' (folders ++ [folder])
      end
  end.
Proof.
  intros path folders path' folder c r Hfolder Hsplit.
  pose proof (ntpath_split_shorter path) as H.
  rewrite Hsplit in H. cbn [fst snd] in H. apply H. discriminate.
Defined.

(** [split_path(start)] where [os.path] is [ntpath]: the drive, when the
    path has one, is the first segment. *)
Definition split_path (start : str) : list str :=
  let path := ntpath.normpath start in
  let '(drive, path_and_file) := ntpath.splitdrive path in
  let '(path, file) := ntpath.split path_and_file in
  let folders := split_path_loop path [file] in
  let parts := rev folders in
  if is_empty drive then parts else drive :: parts.

End Windows.

(* ------------------------------------------------------------------ *)
(** ** Object identity and [node_modules_paths] *)

(** [node_modules_paths] compares a segment with the literal
    ['node_modules'] by [is], which in Python is identity of objects, not
    equality of contents.  A [str] object is either the interned constant
    of a literal of the module, or an object built while the program runs.
    The segments [split_path] returns are of the second kind: [os.path]
    builds them by slicing and joining the path the host hands over. *)
Inductive strobj : Type :=
  | Interned (s : str)
  | Fresh (s : str).

Definition value (o : strobj) : str :=
  match o with Interned s | Fresh s => s end.

(** [o is <literal l>]: only the interned constant itself is identical to
    the literal. *)
Definition is_literal (o : strobj) (l : str) : bool :=
  match o with
  | Interned s => eqb s l
  | Fresh _ => false
  end.

Definition node_modules : str := "node_modules".

(** The loop of [node_modules_paths]; the counter holds [i + 1], so that
    [while i >= 0] is the match on the counter and [S i] gives the index
    [i] of the turn:
<<
    while i >= 0:
      if parts[i] is 'node_modules':
        i = i - 1
        continue
      _parts = (parts[:i + 1] + ['node_modules'])
      dir = os.path.join( *_parts )
      dirs.append(dir)
      i = i - 1
>> *)
Fixpoint node_modules_paths_loop (parts : list strobj) (n : nat)
    (dirs : list str) : list str :=
  match n with
  | 0 => dirs
  | S i =>
      if is_literal (nth i parts (Fresh [])) node_modules
      then node_modules_paths_loop parts i dirs
      else
        let _parts := map value (firstn (S i) parts) ++ [node_modules] in
        node_modules_paths_loop parts i (dirs ++ [posixpath.join_all _parts])
  end.

Definition node_modules_paths (start : str) : list str :=
  let parts := map Fresh (split_path start) in
  node_modules_paths_loop parts (length parts) [].

(** The loop with the comparison the docstring above the function asks
    for ([PARTS[I] = "node_modules"]), equality of contents; it is here to
    be compared with the loop of the source. *)
Fixpoint node_modules_paths_loop_by_value (parts : list str) (n : nat)
    (dirs : list str) : list str :=
  match n with
  | 0 => dirs
  | S i =>
      if eqb (nth i parts []) node_modules
      then node_modules_paths_loop_by_value parts i dirs
      else
        let _parts := firstn (S i) parts ++ [node_modules] in
        node_modules_paths_loop_by_value parts i
          (dirs ++ [posixpath.join_all _parts])
  end.

Definition node_modules_paths_by_value (start : str) : list str :=
  let parts := split_path start in
  node_modules_paths_loop_by_value parts (length parts) [].

(* ------------------------------------------------------------------ *)
(** ** Outcomes, effects and the environment *)

(** The exceptions the resolution functions can let escape. *)
Inductive exn : Type :=
  | JSONDecodeError      (* json.load on a malformed manifest (a ValueError) *)
  | AttributeError       (* [.get] on a manifest that is not an object *)
  | TypeError            (* os.path.join with a [main] that is not a string *)
  | OSError              (* [open] on a file that cannot be read *)
  | KeyError (k : string). (* a variable missing from [extract_variables()] *)

Inductive outcome (A : Type) : Type :=
  | Ok (a : A)
  | Raise (e : exn).
Arguments Raise {A} e.

(** What a call does to the file system. *)
Inductive event : Type :=
  | Isfile (p : str)     (* os.path.isfile(p) *)
  | Open (p : str).      (* open(p, 'r', encoding='UTF-8') *)

(** A computation: its outcome and the file-system accesses it made, in
    order. *)
Definition M (A : Type) : Type := outcome A * list event.

Definition ret {A} (a : A) : M A := (Ok a, []).
Definition raise {A} (e : exn) : M A := (Raise e, []).
Definition bind {A B} (m : M A) (f : A -> M B) : M B :=
  match m with
  | (Ok a, t) => let '(r, t') := f a in (r, t ++ t')
  | (Raise e, t) => (Raise e, t)
  end.

Notation "x <- m ;; f" := (bind m (fun x => f))
  (at level 61, m at next level, right associativity).

Definition result {A} (m : M A) : outcome A := fst m.
Definition trace {A} (m : M A) : list event := snd m.

(** JSON values, as [json.load] returns them. *)
Inductive json : Type :=
  | JNull
  | JBool (b : bool)
  | JNumber (n : nat)
  | JString (s : str)
  | JArray (l : list json)
  | JObject (items : list (str * json)).

(** [d.get(key, default)] on the items of a dict. *)
Fixpoint dict_get (items : list (str * json)) (key : str) (default : json) : json :=
  match items with
  | [] => default
  | (k, v) :: r => if eqb k key then v else dict_get r key default
  end.

(** The file system, as the resolver sees it: which paths name a regular
    file, and what a file holds ([None]: it cannot be read). *)
Record filesystem : Type := {
  fs_isfile : str -> bool;
  fs_read : str -> option str
}.

(** The variables of [window.extract_variables()] and the view settings
    [find_module] reads. *)
Record window : Type := {
  ctx_file_path : option str;
  ctx_project_path : option str;
  webpack_resolve_modules : option (list str);
  webpack_resolve_extensions : option (list str)
}.

(** Truthiness of a value that is [None] or a string. *)
Definition truthy (v : option str) : bool :=
  match v with
  | Some (_ :: _) => true
  | _ => false
  end.

(** Truthiness of a value that is [None] or a list. *)
Definition truthy_list {A} (v : option (list A)) : bool :=
  match v with
  | Some (_ :: _) => true
  | _ => false
  end.

(** Python's [a or b] on computations: [b] runs only when [a] is falsy. *)
Definition por (a b : M (option str)) : M (option str) :=
  x <- a ;; if truthy x then ret x else b.

Definition CORE_MODULES : list str :=
  map lit
  [ "assert"; "buffer"; "child_process"; "cluster"; "crypto"; "dgram";
    "dns"; "domain"; "events"; "fs"; "http"; "https"; "net"; "os"; "path";
    "punycode"; "querystring"; "readline"; "repl"; "stream";
    "string_decoder"; "tls"; "tty"; "url"; "util"; "v8"; "vm"; "zlib" ].

(** [module in CORE_MODULES] *)
Definition is_core (module : str) : bool := existsb (eqb module) CORE_MODULES.

(* ------------------------------------------------------------------ *)
(** ** The resolution functions *)

Section Resolver.

(** The file system, [json.loads] ([None]: the text is not JSON) and the
    setting [resolve_extensions] of the plugin's settings file. *)
Variable fs : filesystem.
Variable json_loads : str -> option json.
Variable resolve_extensions : list str.

Definition isfile (p : str) : M bool := (Ok (fs_isfile fs p), [Isfile p]).

(** [open(p, 'r', encoding='UTF-8')] and reading the whole file. *)
Definition open_read (p : str) : M str :=
  match fs_read fs p with
  | Some text => (Ok text, [Open p])
  | None => (Raise OSError, [Open p])
  end.

(** [json.load] of the text read. *)
Definition json_load (text : str) : M json :=
  match json_loads text with
  | Some v => ret v
  | None => raise JSONDecodeError
  end.

(** [returnIfFile(path, file = None)]:
<<
    if not path:
      return
    _file = path
    if file:
      _file = os.path.join(path, file)
    if os.path.isfile(_file):
      return _file
>> *)
Definition returnIfFile (path : option str) (file : option str) : M (option str) :=
  if negb (truthy path) then ret None
  else
    let path := match path with Some p => p | None => [] end in
    let _file :=
      match file with
      | Some ((_ :: _) as f) => posixpath.join path [f]
      | _ => path
      end in
    b <- isfile _file ;;
    if b then ret (Some _file) else ret None.

(** The [for] loop of [load_as_file]. *)
Fixpoint load_as_file_loop (path : str) (extensions : list str) : M (option str) :=
  match extensions with
  | [] => ret None
  | extension :: rest =>
      file <- returnIfFile (Some (path ++ extension)) None ;;
      if truthy file then ret file else load_as_file_loop path rest
  end.

Definition load_as_file (path : str) : M (option str) :=
  file <- returnIfFile (Some path) None ;;
  if truthy file then ret file
  else load_as_file_loop path resolve_extensions.

(** The [for] loop of [load_index]. *)
Fixpoint load_index_loop (path : str) (extensions : list str) : M (option str) :=
  match extensions with
  | [] => ret None
  | extension :: rest =>
      file <- returnIfFile (Some path) (Some (lit "index" ++ extension)) ;;
      if truthy file then ret file else load_index_loop path rest
  end.

Definition load_index (path : str) : M (option str) :=
  load_index_loop path resolve_extensions.

(** [package_json.get('main', 'index.js')]: only a dict has [get]. *)
Definition get_main (package_json : json) : M json :=
  match package_json with
  | JObject items => ret (dict_get items (lit "main") (JString (lit "index.js")))
  | _ => raise AttributeError
  end.

(** [os.path.join(path, main)]: [main] has to be a string. *)
Definition join_main (path : str) (main : json) : M str :=
  match main with
  | JString m => ret (posixpath.join path [m])
  | _ => raise TypeError
  end.

Definition load_as_directory (path : str) : M (option str) :=
  package_path <- returnIfFile (Some path) (Some (lit "package.json")) ;;
  if truthy package_path then
    match package_path with
    | Some package_path =>
        package_json_contents <- open_read package_path ;;
        package_json <- json_load package_json_contents ;;
        main <- get_main package_json ;;
        main_path <- join_main path main ;;
        por (load_as_file main_path) (load_index main_path)
    | None => ret None
    end
  else load_index path.

(** The [for] loop of [load_node_modules]. *)
Fixpoint load_node_modules_loop (module : str) (dirs : list str) : M (option str) :=
  match dirs with
  | [] => ret None
  | dir :: rest =>
      let path := posixpath.join dir [module] in
      file <- por (load_as_file path) (load_as_directory path) ;;
      if truthy file then ret file else load_node_modules_loop module rest
  end.

Definition load_node_modules (module start : str) : M (option str) :=
  let dirs := node_modules_paths start in
  load_node_modules_loop module dirs.

Definition find_require_module (module file_path : str) : M (option str) :=
  if is_core module then ret (Some module)
  else if startswith module (lit ".") then
    let path := posixpath.normpath (posixpath.join file_path [module]) in
    por (load_as_file path) (load_as_directory path)
  else load_node_modules module file_path.

(** The inner [for] loop of [find_import_module], over the extensions. *)
Fixpoint find_import_module_exts (module project_path root : str)
    (extensions : list str) : M (option str) :=
  match extensions with
  | [] => ret None
  | extension :: rest =>
      let folder_path := posixpath.join project_path [root] in
      file <- por (returnIfFile (Some (posixpath.join folder_path [module])) None)
              (por (returnIfFile (Some (posixpath.join folder_path [module ++ extension])) None)
                   (returnIfFile (Some (posixpath.join folder_path [module; lit "index" ++ extension])) None)) ;;
      if truthy file then ret file
      else find_import_module_exts module project_path root rest
  end.

(** The outer [for] loop of [find_import_module], over the roots. *)
Fixpoint find_import_module_roots (module project_path : str)
    (roots extensions : list str) : M (option str) :=
  match roots with
  | [] => ret None
  | root :: rest =>
      file <- find_import_module_exts module project_path root extensions ;;
      if truthy file then ret file
      else find_import_module_roots module project_path rest extensions
  end.

Definition find_import_module (module project_path : str)
    (webpack_modules : option (list str)) (webpack_extensions : list str)
    : M (option str) :=
  if negb (truthy_list webpack_modules) then ret None
  else
    match webpack_modules with
    | Some roots => find_import_module_roots module project_path roots webpack_extensions
    | None => ret None
    end.

(** [ctx[key]] *)
Definition ctx_lookup (key : string) (v : option str) : M str :=
  match v with
  | Some s => ret s
  | None => raise (KeyError key)
  end.

(** [find_module(window, module)]:
<<
    match = find_require_module(module, file_path)
    if not match or not returnIfFile(match):
      ...
      match = find_import_module(module, project_path, webpack_modules, webpack_extensions)
    return returnIfFile(match)
>> *)
Definition find_module (w : window) (module : str) : M (option str) :=
  file_path <- ctx_lookup "file_path" (ctx_file_path w) ;;
  match_ <- find_require_module module file_path ;;
  is_file <- (if truthy match_ then returnIfFile match_ None else ret None) ;;
  match_ <-
    (if negb (truthy match_) || negb (truthy is_file) then
       project_path <- ctx_lookup "project_path" (ctx_project_path w) ;;
       let webpack_modules := webpack_resolve_modules w in
       let webpack_extensions :=
         if truthy_list (webpack_resolve_extensions w)
         then match webpack_resolve_extensions w with Some l => l | None => [] end
         else resolve_extensions in
       find_import_module module project_path webpack_modules webpack_extensions
     else ret match_) ;;
  returnIfFile match_ None.

End Resolver.

(** A path names an existing regular file, as [returnIfFile] tests it: the
    empty path is refused before the file system is asked. *)
Definition exists_file (fs : filesystem) (p : str) : bool :=
  negb (is_empty p) && fs_isfile fs p.

(** An absolute POSIX path. *)
Definition absolute (p : str) : bool := startswith p posixpath.sep.

(** The three probes of one turn of [find_import_module], in order. *)
Definition alias_candidates (module project_path root extension : str) : list str :=
  let folder_path := posixpath.join project_path [root] in
  [ posixpath.join folder_path [module];
    posixpath.join folder_path [module ++ extension];
    posixpath.join folder_path [module; lit "index" ++ extension] ].

(** The value a stage handed over names an existing regular file. *)
Definition is_existing (fs : filesystem) (m : option str) : bool :=
  match m with
  | Some r => exists_file fs r
  | None => false
  end.

(** Every path [find_import_module] probes, in the order it probes them:
    the roots in the outer loop, the extensions in the inner one. *)
Definition alias_search (module project_path : str) (roots extensions : list str)
    : list str :=
  flat_map (fun root =>
    flat_map (fun extension =>
      alias_candidates module project_path root extension) extensions) roots.

(** The extensions [find_module] hands to [find_import_module]:
    [settings.get('webpack_resolve_extensions') or get_setting('resolve_extensions')]. *)
Definition alias_extensions (w : window) (resolve_extensions : list str) : list str :=
  if truthy_list (webpack_resolve_extensions w)
  then match webpack_resolve_extensions w with Some l => l | None => [] end
  else resolve_extensions.

(** The path of the manifest of a directory. *)
Definition manifest_path (path : str) : str :=
  posixpath.join path [lit "package.json"].

(** What reading the manifest of [path] gives once the manifest is known to
    be a file: the entry path [M], or the exception that escapes. *)
Definition manifest_entry (fs : filesystem) (json_loads : str -> option json)
    (path : str) : outcome str :=
  match fs_read fs (manifest_path path) with
  | None => Raise OSError
  | Some text =>
      match json_loads text with
      | None => Raise JSONDecodeError
      | Some (JObject items) =>
          match dict_get items (lit "main") (JString (lit "index.js")) with
          | JString m => Ok (posixpath.join path [m])
          | _ => Raise TypeError
          end
      | Some _ => Raise AttributeError
      end
  end.

(** The probes [find_module] makes of a value a stage handed over. *)
Definition probes_of (m : option str) : list event :=
  match m with
  | Some ((_ :: _) as r) => [Isfile r]
  | _ => []
  end.

(** The relative branch as the specification words it, for any specifier:
    the candidate is the normal form of the requesting directory joined
    with the specifier, tried as a file and then as a directory.  It is
    here to be compared with what [find_require_module] does. *)
Definition relative_branch (fs : filesystem) (json_loads : str -> option json)
    (resolve_extensions : list str) (module file_path : str) : M (option str) :=
  let candidate := posixpath.normpath (posixpath.join file_path [module]) in
  por (load_as_file fs resolve_extensions candidate)
      (load_as_directory fs json_loads resolve_extensions candidate).

(** One turn of [load_node_modules]: the attempt in the directory [dir]. *)
Definition attempt (fs : filesystem) (json_loads : str -> option json)
    (resolve_extensions : list str) (module dir : str) : M (option str) :=
  let path := posixpath.join dir [module] in
  por (load_as_file fs resolve_extensions path)
      (load_as_directory fs json_loads resolve_extensions path).

(* ------------------------------------------------------------------ *)
(** ** The shape of paths *)

(** A string without a separator. *)
Definition NoSep (s : str) : Prop := ~ In posixpath.sepc s.

(** A segment: non-empty and without a separator. *)
Definition seg (s : str) : Prop := s <> [] /\ NoSep s.

(** The path with [k] leading slashes and the components [cs]. *)
Definition pk (k : nat) (cs : list str) : str := repeat posixpath.sepc k ++ join_with posixpath.sep cs.

(** The segments [split_path] gives for [pk k cs]. *)
Definition parts_of (k : nat) (cs : list str) : list str :=
  (match k with 0 => [] | S _ => [repeat posixpath.sepc k] end)
  ++ (match cs with [] => [[]] | _ => cs end).

(** A string that ends in a character that is not the separator. *)
Definition ends_plain (s : str) : Prop :=
  exists s' c, s = s' ++ [c] /\ c <> posixpath.sepc.

(** The root segment of a path with [k] leading slashes, if it has one. *)
Definition root_part (k : nat) : list str :=
  match k with 0 => [] | S _ => [repeat posixpath.sepc k] end.

(** The parent-directory component. *)
Definition dotdot : str := lit "..".

(** A component [normpath] can keep. *)
Definition good (c : str) : Prop := seg c /\ c <> lit ".".

(** Every [..] stands before every other component. *)
Fixpoint dd_first (l : list str) : Prop :=
  match l with
  | [] => True
  | c :: r => if eqb c dotdot then dd_first r else ~ In dotdot r
  end.

(** The components of a normal path with [k] leading slashes: a rooted
    path has no [..], a relative one has them in front. *)
Definition normal (k : nat) (cs : list str) : Prop :=
  Forall good cs /\ match k with 0 => dd_first cs | S _ => ~ In dotdot cs end.

(** The components [normpath] keeps of a path. *)
Definition norm_comps (path : str) : list str :=
  fold_left (posixpath.norm_step (posixpath.initial_slashes path)) (split_on posixpath.sepc path) [].


(** *** Windows paths *)








(* ------------------------------------------------------------------ *)
(** ** Concrete file systems, for the examples *)

(** A file: its path and its text. *)
Definition file (name text : str) : str * str := (name, text).

(** The file system holding exactly the listed files, each with its text;
    a path names a file when its normal form is listed. *)
Definition fs_of (files : list (str * str)) : filesystem :=
  {| fs_isfile p :=
       existsb (fun f => eqb (posixpath.normpath p) (fst f)) files;
     fs_read p :=
       match find (fun f => eqb (posixpath.normpath p) (fst f)) files with
       | Some f => Some (snd f)
       | None => None
       end |}.

Definition dquote : ascii := ascii_of_nat 34.

(** The text of a manifest whose only field is [main]. *)
Definition manifest_with_main (main : str) : str :=
  lit "{" ++ [dquote] ++ lit "main" ++ [dquote] ++ lit ": "
    ++ [dquote] ++ main ++ [dquote] ++ lit "}".

(** A stand-in for [json.loads] on the manifests of the examples; any
    other text is not JSON. *)
Definition json_of (text : str) : option json :=
  if eqb text (lit "{}") then Some (JObject [])
  else if eqb text (manifest_with_main "lib/entry.js")
  then Some (JObject [(lit "main", JString (lit "lib/entry.js"))])
  else None.

Definition js_exts : list str := [lit ".js"].

Definition fs_foo : filesystem :=
  fs_of [file "/p/foo" ""; file "/p/foo.js" ""].

Definition fs_manifest : filesystem :=
  fs_of [file "/p/dir/package.json" (manifest_with_main "lib/entry.js");
         file "/p/dir/lib/entry.js" ""; file "/p/dir/index.js" ""].

Definition fs_broken : filesystem :=
  fs_of [file "/p/dir/package.json" "{"; file "/p/dir/index.js" ""].

Definition fs_nested : filesystem :=
  fs_of [file "a/b/node_modules/pkg/index.js" "";
         file "a/node_modules/pkg/index.js" ""].

Definition fs_alias : filesystem := fs_of [file "/p/src/fs.js" ""].

Definition fs_opt : filesystem := fs_of [file "/opt/m.js" ""].

Definition fs_none : filesystem := fs_of [].

(** A window on a file of [/p], in the project [/p]. *)
Definition window_of (roots : option (list str)) : window :=
  {| ctx_file_path := Some (lit "/p");
     ctx_project_path := Some (lit "/p");
     webpack_resolve_modules := roots;
     webpack_resolve_extensions := None |}.

(* ------------------------------------------------------------------ *)
(** ** Opening a module: [open_module_file] and [_on_anchor_clicked] *)

(** What the plugin asks of the editor and of the browser. *)
Inductive ui_action : Type :=
  | OpenFile (file : str)          (* window.open_file(file) *)
  | RevealInSideBar (delay : nat)  (* sublime.set_timeout(<reveal_in_side_bar>, delay) *)
  | Browse (url : str).            (* webbrowser.open(url, autoraise=True) *)

(** ['https://nodejs.org/api/%s.html' % module] *)
Definition nodejs_api_url (module : str) : str :=
  lit "https://nodejs.org/api/" ++ module ++ lit ".html".

(** ['https://www.npmjs.com/package/' + package] *)
Definition npm_package_url (package : str) : str :=
  lit "https://www.npmjs.com/package/" ++ package.

(** [open_module_file(window, module)], with the setting
    [reveal_in_side_bar] as a parameter:
<<
    file = find_module(window, module)
    if file:
      window.open_file(file)
      if get_setting('reveal_in_side_bar'):
        sublime.set_timeout(lambda: window.run_command('reveal_in_side_bar'), 100)
    else:
      webbrowser.open('https://nodejs.org/api/%s.html' % module, autoraise=True)
>> *)
Definition open_module_file (fs : filesystem) (json_loads : str -> option json)
    (resolve_extensions : list str) (reveal_in_side_bar : bool)
    (w : window) (module : str) : M (list ui_action) :=
  file <- find_module fs json_loads resolve_extensions w module ;;
  if truthy file then
    match file with
    | Some f =>
        ret (OpenFile f :: if reveal_in_side_bar then [RevealInSideBar 100] else [])
    | None => ret []
    end
  else ret [Browse (nodejs_api_url module)].

(** [_on_anchor_clicked(window, module)], the answer to a click on a link
    of the popup; [module] is the target of the link:
<<
    if module.startswith('npm_'):
      return webbrowser.open('https://www.npmjs.com/package/' + module[len('npm_'):], autoraise=True)
    elif module.startswith('help_'):
      return webbrowser.open(module[len('help_'):], autoraise=True)
    open_module_file(window, module)
>> *)
Definition _on_anchor_clicked (fs : filesystem) (json_loads : str -> option json)
    (resolve_extensions : list str) (reveal_in_side_bar : bool)
    (w : window) (module : str) : M (list ui_action) :=
  if startswith module (lit "npm_") then
    ret [Browse (npm_package_url (skipn (length (lit "npm_")) module))]
  else if startswith module (lit "help_") then
    ret [Browse (skipn (length (lit "help_")) module)]
  else open_module_file fs json_loads resolve_extensions reveal_in_side_bar w module.

(* ------------------------------------------------------------------ *)
(** ** Folding the imports: [EsFoldImportsCommand] *)

Module EsFoldImportsCommand.

(** [sublime.Region(a, b)], with [begin()] and [end()]. *)
Record region : Type := Region { a : nat; b : nat }.

Definition begin (r : region) : nat := Nat.min (a r) (b r).
Definition end_ (r : region) : nat := Nat.max (a r) (b r).

(** The calls the command makes on its view. *)
Inductive view_call : Type :=
  | Fold (r : region)      (* view.fold(r) *)
  | Unfold (r : region).   (* view.unfold(r) *)

(** The state of the command object is its attribute [folded], which it
    does not have before the first [switch]. *)
Definition state : Type := option bool.

(** [hasattr(self, 'folded') and self.folded is True] *)
Definition is_folded (self : state) : bool :=
  match self with
  | Some true => true
  | _ => false
  end.

(** [self.folded = False if self.is_folded() else True] *)
Definition switch (self : state) : state :=
  Some (if is_folded self then false else true).

(** [execute(pattern)], on the regions [view.find_all(pattern)] returns:
<<
    if len(regions) == 0:
      return
    fn = self.view.unfold if self.is_folded() else self.view.fold
    fn(sublime.Region(regions[0].begin(), regions[-1].end()))
>> *)
Definition execute (self : state) (regions : list region) : list view_call :=
  match regions with
  | [] => []
  | first :: _ =>
      let fn := if is_folded self then Unfold else Fold in
      [fn (Region (begin first) (end_ (last regions first)))]
  end.

(** [run(edit)]: [execute] and then [switch]; the new state and the calls
    made. *)
Definition run (self : state) (regions : list region) : state * list view_call :=
  (switch self, execute self regions).

End EsFoldImportsCommand.

(* ------------------------------------------------------------------ *)
(** ** The cache of regions: [RequireEventListener] *)

Module RequireEventListener.

(** [sublime.Region(a, b)] *)
Record region : Type := Region { a : nat; b : nat }.

(** [region.contains(point)]: [begin() <= point <= end()]. *)
Definition contains (r : region) (point : nat) : bool :=
  (Nat.min (a r) (b r) <=? point)%nat && (point <=? Nat.max (a r) (b r))%nat.

(** A statement the editor found in the view, with what [re.match] gives
    on its text: [group(1)], the text before the module name, and the last
    group, the module name. *)
Record statement : Type := {
  found : region;
  group1 : str;
  module : str
}.

(** What the listener reads of a view: its id and the statements
    [view.find_all] returns for [REQUIRE_REGEXP] and for [IMPORT_REGEXP]. *)
Record view : Type := {
  id : nat;
  requires : list statement;
  imports : list statement
}.

Inductive kind : Type := require | import.

(** The dict [{ 'region': region, 'module': module, 'type': type }]. *)
Record entry : Type := {
  entry_region : region;
  entry_module : str;
  entry_type : kind
}.

(** The dict [view_regions], from view ids to lists of entries. *)
Definition dict : Type := nat -> option (list entry).

Definition empty : dict := fun _ => None.

(** [d[key] = value] *)
Definition set (d : dict) (key : nat) (value : list entry) : dict :=
  fun k => if Nat.eqb k key then Some value else d k.

(** [del d[key]] *)
Definition del (d : dict) (key : nat) : dict :=
  fun k => if Nat.eqb k key then None else d k.

(** The listener object: its attribute [view_regions], which it does not
    have before the first [_find_regions]. *)
Definition state : Type := option dict.

(** [self.view_regions[key]], [None] when there is no such entry. *)
Definition cached (self : state) (key : nat) : option (list entry) :=
  match self with
  | Some d => d key
  | None => None
  end.

(** [_delete_cached_regions(view)]:
<<
    if (hasattr(self, 'view_regions')) and (view.id() in self.view_regions):
      del self.view_regions[view.id()]
>> *)
Definition _delete_cached_regions (self : state) (v : view) : state :=
  match self with
  | Some d =>
      match d (id v) with
      | Some _ => Some (del d (id v))
      | None => self
      end
  | None => None
  end.

(** The body of the two loops of [_find_regions]:
<<
    region.a += len(match.group(1))
    region.b = region.a + len(module)
    regions.append({ 'region': region, 'module': module, 'type': ... })
>> *)
Definition scan_one (type : kind) (s : statement) : entry :=
  let a' := a (found s) + length (group1 s) in
  {| entry_region := Region a' (a' + length (module s));
     entry_module := module s;
     entry_type := type |}.

(** The regions [_find_regions] computes for a view that is not cached. *)
Definition scan (v : view) : list entry :=
  map (scan_one require) (requires v) ++ map (scan_one import) (imports v).

(** [_find_regions(view)]: the new state and the regions returned.
<<
    if not hasattr(self, 'view_regions'):
      self.view_regions = {}
    if view.id() in self.view_regions:
      return self.view_regions[view.id()]
    regions = []
    ...
    self.view_regions[view.id()] = regions
    return regions
>> *)
Definition _find_regions (self : state) (v : view) : state * list entry :=
  let d := match self with Some d => d | None => empty end in
  match d (id v) with
  | Some regions => (Some d, regions)
  | None => (Some (set d (id v) (scan v)), scan v)
  end.

(** [_underline_regions(view)], with the answer of
    [_assert_in_right_file(view)] as a parameter: the new state and the
    regions handed to [view.add_regions], if it is called. *)
Definition _underline_regions (self : state) (right_file : bool) (v : view)
    : state * option (list region) :=
  if negb right_file then (self, None)
  else
    let '(self, regions) := _find_regions self v in
    (self, Some (map entry_region regions)).

(** [on_load_async(view)] and [on_modified_async(view)] *)
Definition on_modified_async (self : state) (right_file : bool) (v : view)
    : state * option (list region) :=
  _underline_regions (_delete_cached_regions self v) right_file v.

Definition on_load_async := on_modified_async.

(** [on_pre_close(view)] *)
Definition on_pre_close (self : state) (v : view) : state :=
  _delete_cached_regions self v.

(** [on_hover(view, point, hover_zone)], with the setting
    [show_popup_on_hover] and the answer of [_assert_in_right_file] as
    parameters: the new state and the entry [_show_popup] is called with,
    if it is called.
<<
    if not get_setting('show_popup_on_hover') or not self._assert_in_right_file(view):
      return
    regions = self._find_regions(view)
    for region in regions:
      if region['region'].contains(point):
        return self._show_popup(view, region, point)
>> *)
Definition on_hover (self : state) (show_popup_on_hover right_file : bool)
    (v : view) (point : nat) : state * option entry :=
  if negb show_popup_on_hover || negb right_file then (self, None)
  else
    let '(self, regions) := _find_regions self v in
    (self, find (fun region => contains (entry_region region) point) regions).

(** What happens to the listener: the calls of the editor. *)
Inductive event : Type :=
  | Load (v : view) (right_file : bool)
  | Modified (v : view) (right_file : bool)
  | Hover (v : view) (point : nat) (show_popup_on_hover right_file : bool)
  | PreClose (v : view).

Definition handle (self : state) (ev : event) : state :=
  match ev with
  | Load v right_file => fst (on_load_async self right_file v)
  | Modified v right_file => fst (on_modified_async self right_file v)
  | Hover v point show right_file => fst (on_hover self show right_file v point)
  | PreClose v => on_pre_close self v
  end.

(** The views the editor has open, by id, as the events leave them: a
    load or a modification brings the view as it is now, a close removes
    it. *)
Definition views : Type := nat -> option view.

Definition views_after (open : views) (ev : event) : views :=
  match ev with
  | Load v _ | Modified v _ => fun k => if Nat.eqb k (id v) then Some v else open k
  | Hover _ _ _ _ => open
  | PreClose v => fun k => if Nat.eqb k (id v) then None else open k
  end.

(** The editor hovers over a view as it is: with the contents of its last
    load or modification. *)
Definition consistent (open : views) (ev : event) : Prop :=
  match ev with
  | Hover v _ _ _ => open (id v) = Some v
  | _ => True
  end.

(** The listener and the open views after a sequence of events. *)
Fixpoint handle_all (self : state) (open : views) (evs : list event)
    : state * views :=
  match evs with
  | [] => (self, open)
  | ev :: rest => handle_all (handle self ev) (views_after open ev) rest
  end.

Fixpoint all_consistent (open : views) (evs : list event) : Prop :=
  match evs with
  | [] => True
  | ev :: rest => consistent open ev /\ all_consistent (views_after open ev) rest
  end.

(** Every cached list is the one computed from the view as it is now. *)
Definition fresh (self : state) (open : views) : Prop :=
  forall key regions,
    cached self key = Some regions ->
    exists v, open key = Some v /\ id v = key /\ regions = scan v.

(** [_assert_in_right_file(view)].  [window] is [view.window()], absent
    for a view that is in no window, and holds the variable [file_name]
    of [window.extract_variables()], absent for a view that is on no
    file; [exts] is the setting [extensions].
<<
    window = view.window()
    if not window: return False
    ctx = window.extract_variables()
    if not 'file_name' in ctx: return False
    file_name = ctx['file_name']
    exts = get_setting('extensions')
    if not file_name.endswith(tuple(exts)):
      return False
    return True
>> *)
Definition _assert_in_right_file (window : option (option str))
    (exts : list str) : bool :=
  match window with
  | None => false
  | Some None => false
  | Some (Some file_name) =>
      if negb (existsb (endswith file_name) exts) then false else true
  end.

End RequireEventListener.

(* ------------------------------------------------------------------ *)
(** ** More file systems and manifests, for the examples *)

Definition js_json_exts : list str := [lit ".js"; lit ".json"].

(** A manifest without [main], beside an [index.json]. *)
Definition fs_index_json : filesystem :=
  fs_of [file "/p/dir/package.json" "{}"; file "/p/dir/index.json" ""].

(** A manifest without [main], beside an [index.js]. *)
Definition fs_index_js : filesystem :=
  fs_of [file "/p/dir/package.json" "{}"; file "/p/dir/index.js" ""].

(** No manifest, an [index.json] only. *)
Definition fs_only_index : filesystem := fs_of [file "/p/dir/index.json" ""].

(** A manifest that is a JSON array. *)
Definition fs_array_manifest : filesystem :=
  fs_of [file "/p/dir/package.json" "[]"; file "/p/dir/index.js" ""].

(** [json_of], and the text [[]] read as the empty array. *)
Definition json_more (text : str) : option json :=
  if eqb text (lit "[]") then Some (JArray []) else json_of text.

(** A package whose nearer copy has a broken manifest and whose farther
    copy is sound. *)
Definition fs_shadowed : filesystem :=
  fs_of [file "/a/b/node_modules/pkg/package.json" "{";
         file "/a/node_modules/pkg/index.js" ""].

(** A window on a file of [/p] with no project open. *)
Definition window_no_project : window :=
  {| ctx_file_path := Some (lit "/p");
     ctx_project_path := None;
     webpack_resolve_modules := None;
     webpack_resolve_extensions := None |}.

(** A view that is not on a file. *)
Definition window_no_file : window :=
  {| ctx_file_path := None;
     ctx_project_path := Some (lit "/p");
     webpack_resolve_modules := None;
     webpack_resolve_extensions := None |}.

(** A view with one [require], and the same view after an edit that
    replaced it by an [import]. *)
Definition view_one : RequireEventListener.view :=
  {| RequireEventListener.id := 1;
     RequireEventListener.requires :=
       [ {| RequireEventListener.found := RequireEventListener.Region 10 23;
            RequireEventListener.group1 := lit "require('";
            RequireEventListener.module := lit "fs" |} ];
     RequireEventListener.imports := [] |}.

Definition view_one_edited : RequireEventListener.view :=
  {| RequireEventListener.id := 1;
     RequireEventListener.requires := [];
     RequireEventListener.imports :=
       [ {| RequireEventListener.found := RequireEventListener.Region 0 19;
            RequireEventListener.group1 := lit "import x from '";
            RequireEventListener.module := lit "./a" |} ] |}.

(** The view is loaded and hovered over, then edited and hovered over
    again. *)
Definition session : list RequireEventListener.event :=
  [ RequireEventListener.Load view_one true;
    RequireEventListener.Hover view_one 20 true true;
    RequireEventListener.Modified view_one_edited true;
    RequireEventListener.Hover view_one_edited 16 true true ].

(* ================================================================== *)
(** * Properties *)

(** ** The monad *)

Lemma result_bind {A B} (m : M A) (f : A -> M B) :
  result (bind m f) =
  match result m with Ok a => result (f a) | Raise e => Raise e end.
Proof.
  destruct m as [[a | e] t]; cbn; [| reflexivity].
  destruct (f a); reflexivity.
Qed.

Lemma trace_bind {A B} (m : M A) (f : A -> M B) :
  trace (bind m f) =
  match result m with Ok a => trace m ++ trace (f a) | Raise e => trace m end.
Proof.
  destruct m as [[a | e] t]; cbn; [| reflexivity].
  destruct (f a); reflexivity.
Qed.

Lemma find_app {A} (f : A -> bool) (l1 l2 : list A) :
  find f (l1 ++ l2) =
  match find f l1 with Some x => Some x | None => find f l2 end.
Proof.
  induction l1 as [| x l1 IH]; cbn; [reflexivity |].
  destruct (f x); [reflexivity | exact IH].
Qed.

Lemma M_eq {A} (m : M A) : m = (result m, trace m).
Proof. destruct m; reflexivity. Qed.

Lemma eqb_eq (a b : str) : eqb a b = true <-> a = b.
Proof.
  revert b; induction a as [| x a IH]; intros [| y b]; cbn; try easy.
  rewrite andb_true_iff, Ascii.eqb_eq, IH. split.
  - intros [-> ->]; reflexivity.
  - intros [= -> ->]; auto.
Qed.

Lemma eqb_refl (a : str) : eqb a a = true.
Proof. apply eqb_eq; reflexivity. Qed.

Lemma eqb_neq (a b : str) : eqb a b = false <-> a <> b.
Proof.
  rewrite <- eqb_eq. destruct (eqb a b); split; congruence.
Qed.

Lemma is_empty_true (s : str) : is_empty s = true <-> s = [].
Proof. destruct s; cbn; split; congruence. Qed.

Lemma is_empty_false (s : str) : is_empty s = false <-> s <> [].
Proof. destruct s; cbn; split; congruence. Qed.

(** ** [returnIfFile] *)

Section ResolverFacts.

Variable fs : filesystem.
Variable js : str -> option json.
Variable exts : list str.

Lemma returnIfFile_falsy (path file : option str) :
  truthy path = false -> returnIfFile fs path file = (Ok None, []).
Proof. unfold returnIfFile; intros ->; reflexivity. Qed.

Lemma returnIfFile_plain (p : str) :
  returnIfFile fs (Some p) None =
  if is_empty p then (Ok None, [])
  else (Ok (if fs_isfile fs p then Some p else None), [Isfile p]).
Proof.
  destruct p as [| c r]; [reflexivity |].
  unfold returnIfFile; cbn.
  destruct (fs_isfile fs (c :: r)); reflexivity.
Qed.

Lemma returnIfFile_sub (p f : str) :
  p <> [] -> f <> [] ->
  returnIfFile fs (Some p) (Some f) =
  (Ok (if fs_isfile fs (posixpath.join p [f]) then Some (posixpath.join p [f]) else None),
   [Isfile (posixpath.join p [f])]).
Proof.
  intros Hp Hf. destruct p as [| c r]; [congruence |].
  destruct f as [| d g]; [congruence |].
  unfold returnIfFile; cbn -[posixpath.join].
  destruct (fs_isfile fs _); reflexivity.
Qed.

Lemma result_returnIfFile_plain (p : str) :
  result (returnIfFile fs (Some p) None) =
  Ok (if exists_file fs p then Some p else None).
Proof.
  rewrite returnIfFile_plain. unfold exists_file.
  destruct (is_empty p); reflexivity.
Qed.

Lemma truthy_if_exists (p : str) :
  truthy (if exists_file fs p then Some p else None) = exists_file fs p.
Proof.
  unfold exists_file. destruct p as [| c r]; cbn; [reflexivity |].
  destruct (fs_isfile fs (c :: r)); reflexivity.
Qed.

Lemma result_por (a b : M (option str)) :
  result (por a b) =
  match result a with
  | Ok x => if truthy x then Ok x else result b
  | Raise e => Raise e
  end.
Proof.
  unfold por. rewrite result_bind.
  destruct (result a) as [x | e]; [| reflexivity].
  destruct (truthy x); reflexivity.
Qed.

Lemma find_exists_truthy (l : list str) :
  truthy (find (exists_file fs) l) =
  match find (exists_file fs) l with Some _ => true | None => false end.
Proof.
  destruct (find (exists_file fs) l) as [p |] eqn:E; [| reflexivity].
  apply find_some in E. destruct E as [_ E]. unfold exists_file in E.
  destruct p; [discriminate | reflexivity].
Qed.

(** ** [load_as_file] and [load_index] *)

Lemma load_as_file_loop_result (path : str) (es : list str) :
  result (load_as_file_loop fs path es) =
  Ok (find (exists_file fs) (map (fun e => path ++ e) es)).
Proof.
  induction es as [| e es IH]; [reflexivity |].
  cbn [load_as_file_loop map find]. rewrite result_bind, result_returnIfFile_plain.
  rewrite truthy_if_exists.
  destruct (exists_file fs (path ++ e)); [reflexivity | exact IH].
Qed.

Lemma load_as_file_result (path : str) :
  result (load_as_file fs exts path) =
  Ok (find (exists_file fs) (path :: map (fun e => path ++ e) exts)).
Proof.
  unfold load_as_file. rewrite result_bind, result_returnIfFile_plain.
  rewrite truthy_if_exists. cbn [find].
  destruct (exists_file fs path); [reflexivity |].
  apply load_as_file_loop_result.
Qed.

Lemma join_one_nonempty (p f : str) : p <> [] -> posixpath.join p [f] <> [].
Proof.
  intros Hp. cbn. unfold posixpath.join_step.
  destruct (startswith f posixpath.sep) eqn:E.
  - destruct f; [discriminate | discriminate].
  - destruct p; [congruence |]. destruct (_ || _); discriminate.
Qed.

Lemma load_index_loop_result (path : str) (es : list str) :
  path <> [] ->
  result (load_index_loop fs path es) =
  Ok (find (fs_isfile fs)
        (map (fun e => posixpath.join path [lit "index" ++ e]) es)).
Proof.
  intros Hp. induction es as [| e es IH]; [reflexivity |].
  cbn [load_index_loop map find]. rewrite result_bind.
  rewrite returnIfFile_sub by (trivial || discriminate). cbn [result fst].
  pose proof (join_one_nonempty (lit "index" ++ e) Hp) as Hne.
  destruct (fs_isfile fs _); [| exact IH].
  destruct (posixpath.join path [lit "index" ++ e]) eqn:E; [congruence | reflexivity].
Qed.

Lemma load_index_loop_empty (es : list str) :
  result (load_index_loop fs [] es) = Ok None.
Proof.
  induction es as [| e es IH]; [reflexivity |].
  cbn [load_index_loop]. rewrite result_bind.
  rewrite returnIfFile_falsy by reflexivity. exact IH.
Qed.

Lemma load_index_no_raise (path : str) (e : exn) :
  result (load_index fs exts path) <> Raise e.
Proof.
  unfold load_index. destruct path as [| c r].
  - rewrite load_index_loop_empty. discriminate.
  - rewrite load_index_loop_result by discriminate. discriminate.
Qed.

Lemma load_as_file_no_raise (path : str) (e : exn) :
  result (load_as_file fs exts path) <> Raise e.
Proof. rewrite load_as_file_result. discriminate. Qed.

Lemma load_as_file_some (path f : str) :
  result (load_as_file fs exts path) = Ok (Some f) ->
  exists_file fs f = true /\ (f = path \/ exists e, In e exts /\ f = path ++ e).
Proof.
  rewrite load_as_file_result. intros E.
  assert (E' : find (exists_file fs) (path :: map (fun e => path ++ e) exts) = Some f)
    by congruence.
  apply find_some in E'. destruct E' as [Hin Hex]. split; [exact Hex |].
  destruct Hin as [<- | Hin]; [left; reflexivity |].
  apply in_map_iff in Hin. destruct Hin as [e [<- He]]. right; eauto.
Qed.

Lemma load_index_some (path f : str) :
  result (load_index fs exts path) = Ok (Some f) ->
  exists_file fs f = true /\
  exists e, In e exts /\ f = posixpath.join path [lit "index" ++ e].
Proof.
  unfold load_index. destruct path as [| c r].
  - rewrite load_index_loop_empty. discriminate.
  - rewrite load_index_loop_result by discriminate. intros [= E].
    apply find_some in E. destruct E as [Hin Hex].
    apply in_map_iff in Hin. destruct Hin as [e [<- He]].
    split; [| eauto]. unfold exists_file. rewrite Hex, andb_true_r.
    apply negb_true_iff, is_empty_false, join_one_nonempty. discriminate.
Qed.

Lemma truthy_exists (p : str) : exists_file fs p = true -> truthy (Some p) = true.
Proof.
  unfold exists_file. destruct p; [discriminate | reflexivity].
Qed.

Lemma result_rif_or (p : str) (b : M (option str)) :
  result (por (returnIfFile fs (Some p) None) b) =
  if exists_file fs p then Ok (Some p) else result b.
Proof.
  rewrite result_por, result_returnIfFile_plain, truthy_if_exists.
  destruct (exists_file fs p); reflexivity.
Qed.

(** ** [find_import_module] *)

Lemma find_import_module_exts_result (module project_path root : str) (es : list str) :
  result (find_import_module_exts fs module project_path root es) =
  Ok (find (exists_file fs)
        (flat_map (fun e => alias_candidates module project_path root e) es)).
Proof.
  induction es as [| e es IH]; [reflexivity |].
  cbn [find_import_module_exts flat_map].
  match goal with
  | |- result (bind ?m _) = _ =>
      change (result (por m (find_import_module_exts fs module project_path root es)) =
              Ok (find (exists_file fs)
                    (alias_candidates module project_path root e ++
                     flat_map (fun e => alias_candidates module project_path root e) es)))
  end.
  rewrite result_por, !result_rif_or, result_returnIfFile_plain.
  unfold alias_candidates at 1. cbn [app find].
  set (a := posixpath.join _ [module]).
  set (b := posixpath.join _ [module ++ e]).
  set (c := posixpath.join _ [module; lit "index" ++ e]).
  destruct (exists_file fs a) eqn:Ea; cbv beta iota;
    [rewrite (truthy_exists _ Ea); reflexivity |].
  destruct (exists_file fs b) eqn:Eb; cbv beta iota;
    [rewrite (truthy_exists _ Eb); reflexivity |].
  destruct (exists_file fs c) eqn:Ec; cbv beta iota;
    [rewrite (truthy_exists _ Ec); reflexivity |].
  exact IH.
Qed.

Lemma find_import_module_roots_result (module project_path : str) (roots es : list str) :
  result (find_import_module_roots fs module project_path roots es) =
  Ok (find (exists_file fs) (alias_search module project_path roots es)).
Proof.
  induction roots as [| root roots IH]; [reflexivity |].
  cbn [find_import_module_roots]. unfold alias_search. cbn [flat_map].
  rewrite result_bind, find_import_module_exts_result, find_exists_truthy.
  rewrite find_app.
  destruct (find (exists_file fs) (flat_map _ es)); [reflexivity | exact IH].
Qed.

Lemma find_import_module_result (module project_path : str)
    (wm : option (list str)) (es : list str) :
  result (find_import_module fs module project_path wm es) =
  Ok (match wm with
      | Some roots => find (exists_file fs) (alias_search module project_path roots es)
      | None => None
      end).
Proof.
  unfold find_import_module. destruct wm as [[| root roots] |]; try reflexivity.
  cbn [truthy_list negb]. apply find_import_module_roots_result.
Qed.

Lemma find_import_module_skipped (module project_path : str)
    (wm : option (list str)) (es : list str) :
  truthy_list wm = false ->
  find_import_module fs module project_path wm es = (Ok None, []).
Proof. unfold find_import_module. intros ->. reflexivity. Qed.

(** ** [load_as_directory] *)

Lemma bind_ret_l {A B} (a : A) (f : A -> M B) : bind (ret a) f = f a.
Proof. unfold bind, ret. destruct (f a); reflexivity. Qed.

Lemma bind_ext {A B} (m : M A) (f g : A -> M B) :
  (forall a, f a = g a) -> bind m f = bind m g.
Proof.
  intros H. destruct m as [[a | e] t]; cbn; [rewrite H |]; reflexivity.
Qed.

Lemma load_as_directory_result (path : str) :
  result (load_as_directory fs js exts path) =
  if exists_file fs (manifest_path path) && negb (is_empty path) then
    match manifest_entry fs js path with
    | Ok M => result (por (load_as_file fs exts M) (load_index fs exts M))
    | Raise e => Raise e
    end
  else result (load_index fs exts path).
Proof.
  unfold load_as_directory. rewrite result_bind.
  destruct path as [| c r].
  { rewrite returnIfFile_falsy by reflexivity. cbn [result fst truthy is_empty negb].
    rewrite andb_false_r. reflexivity. }
  rewrite returnIfFile_sub by discriminate. cbn [result fst is_empty negb].
  rewrite andb_true_r. fold (manifest_path (c :: r)).
  assert (Hne : manifest_path (c :: r) <> []) by (apply join_one_nonempty; discriminate).
  unfold exists_file. apply is_empty_false in Hne. rewrite Hne. cbn [negb andb].
  destruct (fs_isfile fs (manifest_path (c :: r))); [| reflexivity].
  apply is_empty_false in Hne.
  destruct (manifest_path (c :: r)) as [| d q] eqn:Epj; [congruence |].
  cbn [truthy]. rewrite result_bind. unfold manifest_entry. rewrite Epj.
  unfold open_read. destruct (fs_read fs (d :: q)) as [text |]; [| reflexivity].
  cbn [result fst]. rewrite result_bind. unfold json_load.
  destruct (js text) as [v |]; [| reflexivity].
  cbn [result fst ret]. rewrite result_bind.
  destruct v; try reflexivity.
  cbn [get_main result fst ret]. rewrite result_bind.
  destruct (dict_get items (lit "main") (JString (lit "index.js"))); try reflexivity.
Qed.

Lemma load_as_directory_some (path f : str) :
  result (load_as_directory fs js exts path) = Ok (Some f) ->
  exists_file fs f = true.
Proof.
  rewrite load_as_directory_result.
  destruct (_ && _).
  - destruct (manifest_entry fs js path) as [M | e]; [| discriminate].
    rewrite result_por.
    destruct (result (load_as_file fs exts M)) as [[g |] | e] eqn:E.
    + destruct (truthy (Some g)).
      * intros [= <-]. apply load_as_file_some in E. tauto.
      * intros H. apply load_index_some in H. tauto.
    + cbn [truthy]. intros H. apply load_index_some in H. tauto.
    + discriminate.
  - intros H. apply load_index_some in H. tauto.
Qed.

(** ** [load_node_modules] and [find_require_module] *)

Lemma attempt_some (path f : str) :
  result (por (load_as_file fs exts path) (load_as_directory fs js exts path)) = Ok (Some f) ->
  exists_file fs f = true.
Proof.
  rewrite result_por.
  destruct (result (load_as_file fs exts path)) as [[g |] | e] eqn:E.
  - destruct (truthy (Some g)).
    + intros [= <-]. apply load_as_file_some in E. tauto.
    + apply load_as_directory_some.
  - apply load_as_directory_some.
  - discriminate.
Qed.

Lemma load_node_modules_loop_some (module : str) (dirs : list str) (f : str) :
  result (load_node_modules_loop fs js exts module dirs) = Ok (Some f) ->
  exists_file fs f = true.
Proof.
  induction dirs as [| d dirs IH]; [discriminate |].
  cbn [load_node_modules_loop]. rewrite result_bind.
  destruct (result (por _ _)) as [[g |] | e] eqn:E; [| exact IH | discriminate].
  destruct (truthy (Some g)); [| exact IH].
  intros [= <-]. exact (attempt_some _ E).
Qed.

Lemma is_core_In (module : str) : is_core module = true <-> In module CORE_MODULES.
Proof.
  unfold is_core. rewrite existsb_exists. split.
  - intros [x [Hx E]]. apply eqb_eq in E. subst. exact Hx.
  - intros H. exists module. split; [exact H | apply eqb_refl].
Qed.

Lemma find_require_module_some (module file_path f : str) :
  result (find_require_module fs js exts module file_path) = Ok (Some f) ->
  (is_core module = true /\ f = module) \/ (is_core module = false /\ exists_file fs f = true).
Proof.
  unfold find_require_module.
  destruct (is_core module) eqn:Ec.
  - intros [= <-]. left; split; reflexivity.
  - intros H. right. split; [reflexivity |].
    destruct (startswith module (lit ".")).
    + exact (attempt_some _ H).
    + exact (load_node_modules_loop_some _ _ H).
Qed.

(** ** [find_module] *)

Lemma returnIfFile_existing (m : option str) :
  is_existing fs m = true ->
  returnIfFile fs m None = (Ok m, probes_of m) /\ truthy m = true.
Proof.
  destruct m as [[| c r] |]; try discriminate.
  unfold is_existing, exists_file. cbn [is_empty negb andb]. intros H.
  rewrite returnIfFile_plain. cbn [is_empty]. rewrite H. split; reflexivity.
Qed.

Lemma returnIfFile_not_existing (m : option str) :
  is_existing fs m = false ->
  returnIfFile fs m None = (Ok None, probes_of m).
Proof.
  destruct m as [[| c r] |]; try reflexivity.
  unfold is_existing, exists_file. cbn [is_empty negb andb]. intros H.
  rewrite returnIfFile_plain. cbn [is_empty]. rewrite H. reflexivity.
Qed.

Lemma find_module_unfold (w : window) (module fp pp : str) :
  ctx_file_path w = Some fp -> ctx_project_path w = Some pp ->
  find_module fs js exts w module =
  (m <- find_require_module fs js exts module fp ;;
   is_file <- (if truthy m then returnIfFile fs m None else ret None) ;;
   m' <- (if negb (truthy m) || negb (truthy is_file)
          then find_import_module fs module pp (webpack_resolve_modules w)
                 (alias_extensions w exts)
          else ret m) ;;
   returnIfFile fs m' None).
Proof.
  intros Hfp Hpp. unfold find_module. rewrite Hfp, Hpp. cbn [ctx_lookup].
  rewrite bind_ret_l.
  apply bind_ext; intros m. apply bind_ext; intros is_file.
  destruct (negb (truthy m) || negb (truthy is_file)); [| reflexivity].
  rewrite bind_ret_l. reflexivity.
Qed.

Lemma find_module_of_existing (w : window) (module fp pp : str) (m : option str) :
  ctx_file_path w = Some fp -> ctx_project_path w = Some pp ->
  result (find_require_module fs js exts module fp) = Ok m ->
  is_existing fs m = true ->
  find_module fs js exts w module =
  (Ok m, trace (find_require_module fs js exts module fp) ++ probes_of m ++ probes_of m).
Proof.
  intros Hfp Hpp Hm Hex. rewrite (find_module_unfold _ _ Hfp Hpp).
  destruct (returnIfFile_existing _ Hex) as [Hr Ht].
  destruct (find_require_module fs js exts module fp) as [[m0 | e] t]; cbn in Hm; [| discriminate].
  injection Hm as ->. cbn [bind trace snd]. rewrite Ht, Hr.
  cbn [bind]. rewrite Ht. cbn [negb orb]. rewrite bind_ret_l, Hr. reflexivity.
Qed.

Lemma find_module_of_missing (w : window) (module fp pp : str) (m : option str) :
  ctx_file_path w = Some fp -> ctx_project_path w = Some pp ->
  result (find_require_module fs js exts module fp) = Ok m ->
  is_existing fs m = false ->
  find_module fs js exts w module =
  (m' <- (Ok tt, trace (find_require_module fs js exts module fp) ++ probes_of m) ;;
   m' <- find_import_module fs module pp (webpack_resolve_modules w)
           (alias_extensions w exts) ;;
   returnIfFile fs m' None).
Proof.
  intros Hfp Hpp Hm Hex. rewrite (find_module_unfold _ _ Hfp Hpp).
  pose proof (returnIfFile_not_existing _ Hex) as Hr.
  destruct (find_require_module fs js exts module fp) as [[m0 | e] t]; cbn in Hm; [| discriminate].
  injection Hm as ->. cbn [trace snd].
  set (alias := find_import_module _ _ _ _ _).
  assert (E : (is_file <- (if truthy m then returnIfFile fs m None else ret None) ;;
               m' <- (if negb (truthy m) || negb (truthy is_file) then alias else ret m) ;;
               returnIfFile fs m' None) =
              (m' <- (Ok tt, probes_of m) ;; m' <- alias ;; returnIfFile fs m' None)).
  { destruct (truthy m) eqn:Ht.
    - rewrite Hr. cbn [bind truthy negb orb].
      destruct (bind alias _); reflexivity.
    - rewrite bind_ret_l. cbn [negb orb].
      destruct m as [[| c r] |]; try discriminate; cbn [probes_of bind];
        destruct (bind alias _); reflexivity. }
  cbn [bind]. rewrite E. cbn [bind].
  destruct (bind alias _). rewrite app_assoc. reflexivity.
Qed.

End ResolverFacts.

(* ------------------------------------------------------------------ *)
(** ** Claims on the file probes *)

(** C10. [returnIfFile] is total: for [None] or the empty path it answers
    not-found ([None]) and never asks the file system; for a non-empty path
    it asks once about the path (joined with the sub-path when one is
    given) and answers that path exactly when it is a regular file, [None]
    otherwise; it never raises.  So [find_module] can hand it the [None] of
    its failed stages: when neither the primary resolution nor the alias
    search finds anything, [find_module] answers [None]. *)
Theorem returnIfFile_total (fs : filesystem) (file : option str) :
  returnIfFile fs None file = (Ok None, [])
  /\ returnIfFile fs (Some []) file = (Ok None, [])
  /\ (forall c r,
        let path := c :: r in
        let _file :=
          match file with
          | Some ((_ :: _) as f) => posixpath.join path [f]
          | _ => path
          end in
        returnIfFile fs (Some path) file =
        (Ok (if fs_isfile fs _file then Some _file else None), [Isfile _file]))
  /\ (forall path e, result (returnIfFile fs path file) <> Raise e)
  /\ (forall js exts w module fp pp,
        ctx_file_path w = Some fp -> ctx_project_path w = Some pp ->
        result (find_require_module fs js exts module fp) = Ok None ->
        result (find_import_module fs module pp (webpack_resolve_modules w)
                  (alias_extensions w exts)) = Ok None ->
        result (find_module fs js exts w module) = Ok None).
Proof.
  assert (Hcons : forall c r,
        let path := c :: r in
        let _file :=
          match file with
          | Some ((_ :: _) as f) => posixpath.join path [f]
          | _ => path
          end in
        returnIfFile fs (Some path) file =
        (Ok (if fs_isfile fs _file then Some _file else None), [Isfile _file])).
  { intros c r path _file. unfold returnIfFile. cbn [truthy negb].
    fold path. fold _file. unfold isfile. cbn [bind].
    destruct (fs_isfile fs _file); reflexivity. }
  repeat split; try reflexivity; try exact Hcons.
  - intros [[| c r] |] e; try (cbn; discriminate).
    rewrite Hcons. cbn. discriminate.
  - intros js exts w module fp pp Hfp Hpp Hprim Halias.
    rewrite (@find_module_of_missing fs js exts w module fp pp None Hfp Hpp Hprim)
      by reflexivity.
    rewrite !result_bind. cbn [result fst]. rewrite Halias. reflexivity.
Qed.

Lemma returnIfFile_total_witness :
  result (find_module fs_none json_of js_exts (window_of None) "lodash") = Ok None.
Proof.
  refine (proj2 (proj2 (proj2 (proj2 (returnIfFile_total fs_none None))))
            json_of js_exts (window_of None) (lit "lodash") (lit "/p") (lit "/p")
            _ _ _ _); reflexivity.
Defined.

(** C4. [load_as_file] tries the path as it is first and then the path
    with each extension, in the order of the list, and returns the first
    that is a file; so when the path itself is a file it is returned after
    that one probe, whatever files with an extension exist beside it. *)
Theorem load_as_file_exact_match_wins (fs : filesystem) (exts : list str) (path : str) :
  result (load_as_file fs exts path) =
    Ok (find (exists_file fs) (path :: map (fun e => path ++ e) exts))
  /\ (exists_file fs path = true ->
      load_as_file fs exts path = (Ok (Some path), [Isfile path])).
Proof.
  split; [apply load_as_file_result |].
  intros H. unfold load_as_file. rewrite returnIfFile_plain.
  unfold exists_file in H. apply andb_true_iff in H. destruct H as [Hne Hf].
  apply negb_true_iff in Hne. rewrite Hne, Hf. cbn [bind].
  destruct path; [discriminate | reflexivity].
Qed.

Lemma load_as_file_exact_match_wins_witness :
  exists_file fs_foo (lit "/p/foo" ++ lit ".js") = true
  /\ load_as_file fs_foo js_exts "/p/foo" = (Ok (Some (lit "/p/foo")), [Isfile "/p/foo"])
  /\ result (find_require_module fs_foo json_of js_exts "./foo" "/p") = Ok (Some (lit "/p/foo")).
Proof.
  split; [reflexivity |]. split; [| reflexivity].
  apply (proj2 (load_as_file_exact_match_wins fs_foo js_exts "/p/foo")).
  reflexivity.
Defined.

(** C2. When the manifest of a directory is a file whose text is not JSON,
    [load_as_directory] ends in the exception of [json.load], after the
    probe and the read of the manifest: an outcome that is neither
    not-found ([None]) nor a path.  When the directory has no manifest
    file it goes on to the index files, and no exception escapes. *)
Theorem malformed_manifest_is_an_error (fs : filesystem)
    (js : str -> option json) (exts : list str) (path : str) :
  (is_empty path = false ->
   fs_isfile fs (manifest_path path) = true ->
   forall text, fs_read fs (manifest_path path) = Some text -> js text = None ->
   load_as_directory fs js exts path =
     (Raise JSONDecodeError, [Isfile (manifest_path path); Open (manifest_path path)])
   /\ result (load_as_directory fs js exts path) <> Ok None
   /\ forall f, result (load_as_directory fs js exts path) <> Ok (Some f))
  /\ (fs_isfile fs (manifest_path path) = false ->
      result (load_as_directory fs js exts path) = result (load_index fs exts path)
      /\ forall e, result (load_as_directory fs js exts path) <> Raise e).
Proof.
  split.
  - intros Hne Hf text Hread Hjs.
    assert (E : load_as_directory fs js exts path =
                (Raise JSONDecodeError,
                 [Isfile (manifest_path path); Open (manifest_path path)])).
    { unfold load_as_directory.
      rewrite returnIfFile_sub by (try apply is_empty_false; trivial; discriminate).
      fold (manifest_path path). rewrite Hf. cbn [bind].
      assert (Hp : manifest_path path <> [])
        by (apply join_one_nonempty, is_empty_false, Hne).
      destruct (manifest_path path) as [| c r] eqn:Epj; [congruence |].
      cbn [truthy]. unfold open_read. rewrite Hread. cbn [bind].
      unfold json_load. rewrite Hjs. reflexivity. }
    rewrite E. cbn. repeat split; discriminate.
  - intros Hf.
    assert (E : result (load_as_directory fs js exts path) = result (load_index fs exts path)).
    { rewrite load_as_directory_result. unfold exists_file. rewrite Hf.
      rewrite andb_false_r. reflexivity. }
    split; [exact E |]. intros e. rewrite E. apply load_index_no_raise.
Qed.

Lemma malformed_manifest_is_an_error_witness :
  (load_as_directory fs_broken json_of js_exts "/p/dir" =
     (Raise JSONDecodeError,
      [Isfile (manifest_path "/p/dir"); Open (manifest_path "/p/dir")])
   /\ result (load_as_directory fs_broken json_of js_exts "/p/dir") <> Ok None
   /\ forall f, result (load_as_directory fs_broken json_of js_exts "/p/dir") <> Ok (Some f))
  /\ (result (load_as_directory fs_nested json_of js_exts "a/node_modules/pkg") =
        result (load_index fs_nested js_exts "a/node_modules/pkg")
      /\ forall e, result (load_as_directory fs_nested json_of js_exts "a/node_modules/pkg") <> Raise e)
  /\ result (find_require_module fs_broken json_of js_exts "./dir" "/p") =
     Raise JSONDecodeError.
Proof.
  split; [| split; [| reflexivity]].
  - apply (proj1 (malformed_manifest_is_an_error fs_broken json_of js_exts "/p/dir"))
      with (text := lit "{"); reflexivity.
  - apply (proj2 (malformed_manifest_is_an_error fs_nested json_of js_exts "a/node_modules/pkg")).
    reflexivity.
Defined.

(** C5. In a directory whose manifest is a file holding a JSON object, the
    entry of the manifest goes first: with [M] the directory joined with
    the entry, whatever [load_as_file] finds at [M] is the result, whether
    or not the directory has an index file; and only when [load_as_file]
    finds nothing at [M] is the result that of the index search at [M]. *)
Theorem manifest_main_precedence (fs : filesystem) (js : str -> option json)
    (exts : list str) (path text : str) (items : list (str * json)) (m : str) :
  is_empty path = false ->
  fs_isfile fs (manifest_path path) = true ->
  fs_read fs (manifest_path path) = Some text ->
  js text = Some (JObject items) ->
  dict_get items (lit "main") (JString (lit "index.js")) = JString m ->
  (forall f, result (load_as_file fs exts (posixpath.join path [m])) = Ok (Some f) ->
             result (load_as_directory fs js exts path) = Ok (Some f))
  /\ (result (load_as_file fs exts (posixpath.join path [m])) = Ok None ->
      result (load_as_directory fs js exts path) =
      result (load_index fs exts (posixpath.join path [m]))).
Proof.
  intros Hne Hf Hread Hjs Hmain.
  assert (E : result (load_as_directory fs js exts path) =
              result (por (load_as_file fs exts (posixpath.join path [m]))
                          (load_index fs exts (posixpath.join path [m])))).
  { rewrite load_as_directory_result. unfold exists_file. rewrite Hf, Hne.
    assert (Hp : is_empty (manifest_path path) = false)
      by (apply is_empty_false, join_one_nonempty, is_empty_false, Hne).
    rewrite Hp. cbn [negb andb].
    unfold manifest_entry. rewrite Hread, Hjs, Hmain. reflexivity. }
  rewrite E, result_por. split.
  - intros f Hfile. rewrite Hfile.
    apply load_as_file_some in Hfile. destruct Hfile as [Hex _].
    rewrite (truthy_exists _ _ Hex). reflexivity.
  - intros Hnone. rewrite Hnone. reflexivity.
Qed.

Lemma manifest_main_precedence_witness :
  exists_file fs_manifest "/p/dir/index.js" = true
  /\ result (load_as_directory fs_manifest json_of js_exts "/p/dir") =
     Ok (Some (lit "/p/dir/lib/entry.js"))
  /\ result (find_require_module fs_manifest json_of js_exts "./dir" "/p") =
     Ok (Some (lit "/p/dir/lib/entry.js")).
Proof.
  split; [reflexivity |]. split; [| reflexivity].
  refine (proj1 (@manifest_main_precedence fs_manifest json_of js_exts
                   "/p/dir" (manifest_with_main "lib/entry.js")
                   [(lit "main", JString (lit "lib/entry.js"))]
                   "lib/entry.js" _ _ _ _ _) _ _); reflexivity.
Defined.

(* ------------------------------------------------------------------ *)
(** ** Claims on the alias fallback *)

Lemma returnIfFile_found (fs : filesystem) (l : list str) :
  returnIfFile fs (find (exists_file fs) l) None =
  (Ok (find (exists_file fs) l), probes_of (find (exists_file fs) l)).
Proof.
  destruct (find (exists_file fs) l) as [p |] eqn:E; [| reflexivity].
  apply find_some in E. destruct E as [_ E].
  exact (proj1 (@returnIfFile_existing fs (Some p) E)).
Qed.

Lemma find_module_with_file_path (fs : filesystem) (js : str -> option json)
    (exts : list str) (w : window) (module fp : str) :
  ctx_file_path w = Some fp ->
  find_module fs js exts w module =
  (m <- find_require_module fs js exts module fp ;;
   is_file <- (if truthy m then returnIfFile fs m None else ret None) ;;
   m' <- (if negb (truthy m) || negb (truthy is_file)
          then project_path <- ctx_lookup "project_path" (ctx_project_path w) ;;
               find_import_module fs module project_path (webpack_resolve_modules w)
                 (alias_extensions w exts)
          else ret m) ;;
   returnIfFile fs m' None).
Proof.
  intros Hfp. unfold find_module. rewrite Hfp. cbn [ctx_lookup].
  rewrite bind_ret_l. reflexivity.
Qed.

Lemma find_module_keeps_existing (fs : filesystem) (js : str -> option json)
    (exts : list str) (w : window) (module fp : str) (m : option str) :
  ctx_file_path w = Some fp ->
  result (find_require_module fs js exts module fp) = Ok m ->
  is_existing fs m = true ->
  find_module fs js exts w module =
  (Ok m, trace (find_require_module fs js exts module fp) ++ probes_of m ++ probes_of m).
Proof.
  intros Hfp Hm Hex. rewrite (find_module_with_file_path _ _ _ _ _ Hfp).
  destruct (returnIfFile_existing _ _ Hex) as [Hr Ht].
  destruct (find_require_module fs js exts module fp) as [[m0 | e] t];
    cbn in Hm; [| discriminate].
  injection Hm as ->. cbn [bind trace snd]. rewrite Ht, Hr.
  cbn [bind]. rewrite Ht. cbn [negb orb]. rewrite bind_ret_l, Hr. reflexivity.
Qed.

Lemma find_module_without_project (fs : filesystem) (js : str -> option json)
    (exts : list str) (w : window) (module fp : str) (m : option str) :
  ctx_file_path w = Some fp -> ctx_project_path w = None ->
  result (find_require_module fs js exts module fp) = Ok m ->
  is_existing fs m = false ->
  find_module fs js exts w module =
  (Raise (KeyError "project_path"),
   trace (find_require_module fs js exts module fp) ++ probes_of m).
Proof.
  intros Hfp Hpp Hm Hex. rewrite (find_module_with_file_path _ _ _ _ _ Hfp), Hpp.
  pose proof (returnIfFile_not_existing _ _ Hex) as Hr.
  destruct (find_require_module fs js exts module fp) as [[m0 | e] t];
    cbn in Hm; [| discriminate].
  injection Hm as ->. cbn [bind trace snd].
  destruct (truthy m) eqn:Ht.
  - rewrite Hr. cbn [truthy negb orb ctx_lookup raise bind].
    rewrite app_nil_r. reflexivity.
  - destruct m as [[| c r] |]; cbn in Ht; try discriminate;
      cbn [ret probes_of truthy negb orb ctx_lookup raise bind app];
      rewrite ?app_nil_r; reflexivity.
Qed.

Lemma find_module_fallback_result (fs : filesystem) (js : str -> option json)
    (exts : list str) (w : window) (module fp pp : str) (m : option str) :
  ctx_file_path w = Some fp -> ctx_project_path w = Some pp ->
  result (find_require_module fs js exts module fp) = Ok m ->
  is_existing fs m = false ->
  result (find_module fs js exts w module) =
  Ok (match webpack_resolve_modules w with
      | Some roots =>
          find (exists_file fs) (alias_search module pp roots (alias_extensions w exts))
      | None => None
      end).
Proof.
  intros Hfp Hpp Hm Hex.
  rewrite (@find_module_of_missing fs js exts w module fp pp m Hfp Hpp Hm Hex).
  rewrite !result_bind. cbn [result fst].
  rewrite find_import_module_result.
  destruct (webpack_resolve_modules w) as [roots |]; [| reflexivity].
  rewrite returnIfFile_found. reflexivity.
Qed.

(** C8, as the code has it.  In a window with a file path, let [m] be what
    the primary resolution returns.  When [m] is an existing file,
    [find_module] returns it and makes no alias probe.  When it is not,
    the primary resolution found nothing or returned the name of a core
    module, which is no file; then, in a window with a project path, the
    alias search runs: its result is the first existing file among the
    candidates enumerated roots outermost, extensions inside, and for each
    pair the joined path, that path with the extension, and the index
    file with the extension; with the roots empty or absent the result is
    not-found and no alias probe is made.  In a window without a project
    path [find_module] raises [KeyError] at that point, whatever the
    roots, and makes no alias probe. *)
Theorem alias_fallback_engagement (fs : filesystem) (js : str -> option json)
    (exts : list str) (w : window) (module fp : str) (m : option str) :
  ctx_file_path w = Some fp ->
  result (find_require_module fs js exts module fp) = Ok m ->
  (is_existing fs m = true ->
   find_module fs js exts w module =
   (Ok m, trace (find_require_module fs js exts module fp) ++ probes_of m ++ probes_of m))
  /\ (is_existing fs m = false ->
      (m = None \/ (is_core module = true /\ m = Some module))
      /\ match ctx_project_path w with
         | Some pp =>
             result (find_module fs js exts w module) =
             Ok (match webpack_resolve_modules w with
                 | Some roots =>
                     find (exists_file fs)
                       (alias_search module pp roots (alias_extensions w exts))
                 | None => None
                 end)
             /\ (truthy_list (webpack_resolve_modules w) = false ->
                 find_module fs js exts w module =
                 (Ok None,
                  trace (find_require_module fs js exts module fp) ++ probes_of m))
         | None =>
             find_module fs js exts w module =
             (Raise (KeyError "project_path"),
              trace (find_require_module fs js exts module fp) ++ probes_of m)
         end).
Proof.
  intros Hfp Hm. split.
  - intros Hex. exact (find_module_keeps_existing _ _ _ _ _ Hfp Hm Hex).
  - intros Hex. split.
    + destruct m as [r |]; [right | left; reflexivity].
      destruct (@find_require_module_some fs js exts module fp r Hm) as [[Hc ->] | [_ Hf]].
      * split; [exact Hc | reflexivity].
      * cbn in Hex. congruence.
    + destruct (ctx_project_path w) as [pp |] eqn:Hpp.
      * split.
        -- exact (find_module_fallback_result _ _ _ _ _ Hfp Hpp Hm Hex).
        -- intros Hroots.
           rewrite (@find_module_of_missing fs js exts w module fp pp m Hfp Hpp Hm Hex).
           rewrite find_import_module_skipped by exact Hroots.
           change (@pair (outcome (option str)) (list event) (Ok None) [])
             with (@ret (option str) None).
           rewrite bind_ret_l, returnIfFile_falsy by reflexivity.
           cbn [bind]. rewrite app_nil_r. reflexivity.
      * exact (find_module_without_project _ _ _ _ _ Hfp Hpp Hm Hex).
Qed.

Lemma alias_fallback_engagement_witness :
  find_module fs_foo json_of js_exts window_no_project "./foo" =
    (Ok (Some (lit "/p/foo")),
     trace (find_require_module fs_foo json_of js_exts "./foo" "/p")
     ++ [Isfile "/p/foo"] ++ [Isfile "/p/foo"])
  /\ result (find_module fs_alias json_of js_exts (window_of (Some [lit "src"])) "fs") =
  Ok (find (exists_file fs_alias) (alias_search "fs" "/p" [lit "src"] js_exts))
  /\ find_module fs_alias json_of js_exts (window_of None) "lodash" =
     (Ok None, trace (find_require_module fs_alias json_of js_exts "lodash" "/p"))
  /\ find_module fs_alias json_of js_exts window_no_project "lodash" =
     (Raise (KeyError "project_path"),
      trace (find_require_module fs_alias json_of js_exts "lodash" "/p")).
Proof.
  split; [| split; [| split]].
  - refine (proj1 (@alias_fallback_engagement fs_foo json_of js_exts
              window_no_project "./foo" "/p" (Some (lit "/p/foo")) _ _) _);
      reflexivity.
  - refine (proj1 (proj2 (proj2 (@alias_fallback_engagement fs_alias json_of js_exts
              (window_of (Some [lit "src"])) "fs" "/p" (Some (lit "fs")) _ _) _)));
      reflexivity.
  - rewrite <- (app_nil_r (trace _)).
    refine (proj2 (proj2 (proj2 (@alias_fallback_engagement fs_alias json_of js_exts
              (window_of None) "lodash" "/p" None _ _) _)) _);
      reflexivity.
  - rewrite <- (app_nil_r (trace _)).
    refine (proj2 (proj2 (@alias_fallback_engagement fs_alias json_of js_exts
              window_no_project "lodash" "/p" None _ _) _));
      reflexivity.
Defined.

(** C8 as stated fails on a core module: the primary resolution of ['fs']
    does not fail (it returns the name), and still the alias roots are
    searched and the file found there is the result of [find_module]. *)
Lemma alias_fallback_after_core_success :
  result (find_require_module fs_alias json_of js_exts "fs" "/p") = Ok (Some (lit "fs"))
  /\ find_module fs_alias json_of js_exts (window_of (Some [lit "src"])) "fs" =
     (Ok (Some (lit "/p/src/fs.js")),
      [Isfile "fs"; Isfile "/p/src/fs"; Isfile "/p/src/fs.js"; Isfile "/p/src/fs.js"])
  /\ ~ (forall fs js exts w module fp r,
          ctx_file_path w = Some fp ->
          result (find_require_module fs js exts module fp) = Ok (Some r) ->
          result (find_module fs js exts w module) =
          result (returnIfFile fs (Some r) None)).
Proof.
  split; [reflexivity |]. split; [reflexivity |].
  intros H.
  specialize (H fs_alias json_of js_exts (window_of (Some [lit "src"]))
                (lit "fs") (lit "/p") (lit "fs") eq_refl eq_refl).
  vm_compute in H. discriminate H.
Qed.

(* ------------------------------------------------------------------ *)
(** ** Claims on [node_modules_paths] and [load_node_modules] *)

Lemma rev_seq_S (n : nat) : rev (seq 1 (S n)) = S n :: rev (seq 1 n).
Proof. rewrite seq_S, rev_app_distr. reflexivity. Qed.

(** No segment [split_path] returns is the object of the literal, so the
    loop emits a candidate at every index. *)
Lemma node_modules_paths_loop_fresh (parts : list str) (n : nat) (dirs : list str) :
  node_modules_paths_loop (map Fresh parts) n dirs =
  dirs ++ map (fun k => posixpath.join_all (firstn k parts ++ [node_modules]))
              (rev (seq 1 n)).
Proof.
  revert dirs; induction n as [| i IH]; intros dirs.
  - cbn. rewrite app_nil_r. reflexivity.
  - cbn [node_modules_paths_loop].
    change (Fresh []) with (Fresh (@nil ascii)).
    rewrite (map_nth Fresh parts [] i). cbn [is_literal].
    rewrite IH, rev_seq_S. cbn [map].
    rewrite <- firstn_map, map_map. cbn [value]. rewrite map_id.
    rewrite <- app_assoc. reflexivity.
Qed.

Lemma node_modules_paths_eq (start : str) :
  node_modules_paths start =
  map (fun k => posixpath.join_all (firstn k (split_path start) ++ [node_modules]))
      (rev (seq 1 (length (split_path start)))).
Proof.
  unfold node_modules_paths. rewrite length_map.
  apply node_modules_paths_loop_fresh.
Qed.

(** C1, the code on a segment named [node_modules].  The loop skips
    nothing: for every start it emits one candidate per segment.  So
    enumerating from [/a/node_modules/x] yields the doubled
    [/a/node_modules/node_modules], because the segment is compared with
    the literal by identity; comparing by value, as the docstring of the
    function asks, would skip it. *)
Theorem node_modules_paths_doubles :
  (forall start, length (node_modules_paths start) = length (split_path start))
  /\ node_modules_paths "/a/node_modules/x" =
    [ lit "/a/node_modules/x/node_modules"; lit "/a/node_modules/node_modules";
      lit "/a/node_modules"; lit "/node_modules" ]
  /\ node_modules_paths_by_value "/a/node_modules/x" =
    [ lit "/a/node_modules/x/node_modules"; lit "/a/node_modules";
      lit "/node_modules" ].
Proof.
  split.
  - intros start. rewrite node_modules_paths_eq.
    rewrite length_map, length_rev, length_seq. reflexivity.
  - split; vm_compute; reflexivity.
Qed.

Lemma load_node_modules_loop_eq (fs : filesystem) (js : str -> option json)
    (exts : list str) (module d : str) (dirs : list str) :
  load_node_modules_loop fs js exts module (d :: dirs) =
  (file <- attempt fs js exts module d ;;
   if truthy file then ret file else load_node_modules_loop fs js exts module dirs).
Proof. reflexivity. Qed.

Lemma load_node_modules_loop_skip (fs : filesystem) (js : str -> option json)
    (exts : list str) (module : str) (dirs1 dirs2 : list str) :
  (forall d, In d dirs1 -> result (attempt fs js exts module d) = Ok None) ->
  result (load_node_modules_loop fs js exts module (dirs1 ++ dirs2)) =
  result (load_node_modules_loop fs js exts module dirs2).
Proof.
  induction dirs1 as [| d dirs1 IH]; intros H; [reflexivity |].
  cbn [app]. rewrite load_node_modules_loop_eq, result_bind.
  rewrite (H d) by (left; reflexivity). cbn [truthy].
  apply IH. intros d' Hd'. apply H. right; exact Hd'.
Qed.

(** C6. The candidates of [node_modules_paths] are the prefixes of the
    segments of the start, each with [node_modules] joined on, the longest
    prefix (the nearest directory) first and the one-segment prefix (the
    root) last; and [load_node_modules] returns what the first directory of
    its list that resolves the package gives, whatever later directories
    hold. *)
Theorem nearest_node_modules_wins :
  (forall start,
     node_modules_paths start =
     map (fun k => posixpath.join_all (firstn k (split_path start) ++ [node_modules]))
         (rev (seq 1 (length (split_path start)))))
  /\ (forall fs js exts module start dirs1 d dirs2 f,
        node_modules_paths start = dirs1 ++ d :: dirs2 ->
        (forall d', In d' dirs1 -> result (attempt fs js exts module d') = Ok None) ->
        result (attempt fs js exts module d) = Ok (Some f) ->
        result (load_node_modules fs js exts module start) = Ok (Some f)).
Proof.
  split; [exact node_modules_paths_eq |].
  intros fs js exts module start dirs1 d dirs2 f Hdirs Hnone Hd.
  unfold load_node_modules. rewrite Hdirs.
  rewrite load_node_modules_loop_skip by exact Hnone.
  rewrite load_node_modules_loop_eq, result_bind, Hd.
  enough (Ht : truthy (Some f) = true) by (rewrite Ht; reflexivity).
  apply (@truthy_exists fs). exact (@attempt_some fs js exts _ _ Hd).
Qed.

Lemma nearest_node_modules_wins_witness :
  node_modules_paths "a/b/c" =
    [lit "a/b/c/node_modules"; lit "a/b/node_modules"; lit "a/node_modules"]
  /\ exists_file fs_nested "a/node_modules/pkg/index.js" = true
  /\ result (load_node_modules fs_nested json_of js_exts "pkg" "a/b/c") =
     Ok (Some (lit "a/b/node_modules/pkg/index.js"))
  /\ result (find_require_module fs_nested json_of js_exts "pkg" "a/b/c") =
     Ok (Some (lit "a/b/node_modules/pkg/index.js")).
Proof.
  split; [reflexivity |]. split; [reflexivity |]. split; [| reflexivity].
  refine (proj2 nearest_node_modules_wins fs_nested json_of js_exts
            (lit "pkg") (lit "a/b/c") [lit "a/b/c/node_modules"]
            (lit "a/b/node_modules") [lit "a/node_modules"]
            (lit "a/b/node_modules/pkg/index.js") _ _ _).
  - reflexivity.
  - intros d' [<- | []]. reflexivity.
  - reflexivity.
Defined.

(* ------------------------------------------------------------------ *)
(** ** Claims on the dispatch of [find_require_module] *)

Lemma rooted_not_core (rest : str) : is_core (posixpath.sepc :: rest) = false.
Proof. reflexivity. Qed.

Lemma rooted_not_dotted (rest : str) :
  startswith (posixpath.sepc :: rest) (lit ".") = false.
Proof. reflexivity. Qed.

(** C7, the code on a rooted specifier: it is sent through
    [load_node_modules], once per ancestor directory and without
    normalisation.  At the failing input the code returns the specifier as
    written where the relative branch returns its normal form, and for a
    specifier that resolves nowhere it probes the same four paths once per
    ancestor. *)
Theorem rooted_specifier_searches_node_modules :
  (forall fs js exts rest file_path,
     find_require_module fs js exts (posixpath.sepc :: rest) file_path =
     load_node_modules fs js exts (posixpath.sepc :: rest) file_path)
  /\ result (find_require_module fs_opt json_of js_exts "/opt//m.js" "/home/u") =
     Ok (Some (lit "/opt//m.js"))
  /\ result (relative_branch fs_opt json_of js_exts "/opt//m.js" "/home/u") =
     Ok (Some (lit "/opt/m.js"))
  /\ trace (relative_branch fs_none json_of js_exts "/m" "/a/b") =
     [Isfile "/m"; Isfile "/m.js"; Isfile "/m/package.json"; Isfile "/m/index.js"]
  /\ trace (find_require_module fs_none json_of js_exts "/m" "/a/b") =
     [Isfile "/m"; Isfile "/m.js"; Isfile "/m/package.json"; Isfile "/m/index.js";
      Isfile "/m"; Isfile "/m.js"; Isfile "/m/package.json"; Isfile "/m/index.js";
      Isfile "/m"; Isfile "/m.js"; Isfile "/m/package.json"; Isfile "/m/index.js"].
Proof.
  split.
  - intros fs js exts rest file_path. unfold find_require_module.
    rewrite rooted_not_core, rooted_not_dotted. reflexivity.
  - repeat split; vm_compute; reflexivity.
Qed.

(* ------------------------------------------------------------------ *)
(** ** Paths: segments, splitting and joining *)

Section PathFacts.

Import posixpath.

Lemma sepc_eqb (c : ascii) : Ascii.eqb c sepc = false <-> c <> sepc.
Proof. rewrite <- Ascii.eqb_eq. destruct (Ascii.eqb c sepc); split; congruence. Qed.

Lemma NoSep_cons (c : ascii) (s : str) : NoSep (c :: s) <-> c <> sepc /\ NoSep s.
Proof. unfold NoSep. cbn. intuition congruence. Qed.

Lemma NoSep_nil : NoSep [].
Proof. intros []. Qed.

Lemma rfind1_nosep (s : str) : NoSep s -> rfind1 sepc s = 0.
Proof.
  induction s as [| c s IH]; [reflexivity |].
  intros H. apply NoSep_cons in H. destruct H as [Hc Hs].
  cbn. rewrite (IH Hs). apply sepc_eqb in Hc. rewrite Hc. reflexivity.
Qed.

Lemma rfind1_app (a c : str) :
  NoSep c -> rfind1 sepc (a ++ sepc :: c) = S (length a).
Proof.
  intros Hc. induction a as [| x a IH].
  - cbn. rewrite (rfind1_nosep Hc). reflexivity.
  - cbn [app rfind1 length]. rewrite IH. reflexivity.
Qed.

Lemma eqb_repeat_sep (s : str) :
  eqb s (repeat sepc (length s)) = true <-> Forall (eq sepc) s.
Proof.
  rewrite eqb_eq. induction s as [| c s IH]; cbn.
  - split; auto.
  - split.
    + intros [= Hc Hs]. constructor; [congruence | apply IH; exact Hs].
    + intros H. inversion H as [| ? ? Hc Hs]; subst. f_equal. apply IH, Hs.
Qed.

Lemma Forall_sep_repeat (k : nat) : Forall (eq sepc) (repeat sepc k).
Proof. induction k; cbn; constructor; auto. Qed.

Lemma rstrip_snoc_sep (s : str) : rstrip sepc (s ++ [sepc]) = rstrip sepc s.
Proof.
  unfold rstrip. rewrite rev_app_distr. reflexivity.
Qed.

Lemma rstrip_snoc_other (s : str) (c : ascii) :
  c <> sepc -> rstrip sepc (s ++ [c]) = s ++ [c].
Proof.
  intros Hc. unfold rstrip. rewrite rev_app_distr. cbn [rev app dropwhile].
  assert (E : Ascii.eqb sepc c = false).
  { rewrite Ascii.eqb_sym. apply sepc_eqb, Hc. }
  rewrite E. cbn [rev]. rewrite rev_involutive. reflexivity.
Qed.

Lemma seg_ends_plain (c : str) : seg c -> ends_plain c.
Proof.
  intros [Hne Hns]. destruct (exists_last Hne) as [s' [x ->]].
  exists s', x. split; [reflexivity |].
  intros ->. apply Hns, in_or_app. right; left; reflexivity.
Qed.

Lemma ends_plain_app (a b : str) : ends_plain b -> ends_plain (a ++ b).
Proof.
  intros [s' [c [-> Hc]]]. exists (a ++ s'), c. rewrite app_assoc. auto.
Qed.

Lemma ends_plain_not_all_sep (s : str) : ends_plain s -> ~ Forall (eq sepc) s.
Proof.
  intros [s' [c [-> Hc]]] H. apply Forall_app in H. destruct H as [_ H].
  inversion H; subst. congruence.
Qed.

Lemma ends_plain_nonempty (s : str) : ends_plain s -> s <> [].
Proof. intros [s' [c [-> _]]]. destruct s'; discriminate. Qed.

Lemma rstrip_ends_plain (s : str) : ends_plain s -> rstrip sepc s = s.
Proof. intros [s' [c [-> Hc]]]. apply rstrip_snoc_other, Hc. Qed.

Lemma endswith_snoc (s : str) (c : ascii) :
  endswith (s ++ [c]) sep = Ascii.eqb c sepc.
Proof.
  unfold endswith, sep. rewrite rev_app_distr. cbn [rev app startswith].
  destruct (rev s); apply andb_true_r.
Qed.

Lemma endswith_ends_plain (s : str) : ends_plain s -> endswith s sep = false.
Proof. intros [s' [c [-> Hc]]]. rewrite endswith_snoc. apply sepc_eqb, Hc. Qed.

Lemma startswith_seg (c : str) : seg c -> startswith c sep = false.
Proof.
  intros [Hne Hns]. destruct c as [| x c]; [congruence |].
  apply NoSep_cons in Hns. destruct Hns as [Hx _].
  unfold sep. cbn [startswith]. apply sepc_eqb in Hx. rewrite Hx. reflexivity.
Qed.

Lemma join_with_cons (a : str) (bs : list str) :
  join_with sep (a :: bs) = a ++ concat (map (fun b => sep ++ b) bs).
Proof.
  revert a; induction bs as [| b bs IH]; intros a.
  - cbn. rewrite app_nil_r. reflexivity.
  - cbn [join_with map concat]. cbn [join_with] in IH. rewrite IH.
    rewrite <- !app_assoc. reflexivity.
Qed.

Lemma join_with_snoc (cs : list str) (c : str) :
  cs <> [] -> join_with sep (cs ++ [c]) = join_with sep cs ++ sep ++ c.
Proof.
  destruct cs as [| a bs]; [congruence |]. intros _.
  cbn [app]. rewrite !join_with_cons, map_app, concat_app. cbn [map concat].
  rewrite app_nil_r, <- !app_assoc. reflexivity.
Qed.

Lemma pk_nil (k : nat) : pk k [] = repeat sepc k.
Proof. unfold pk. cbn. apply app_nil_r. Qed.

Lemma pk_snoc (k : nat) (cs : list str) (c : str) :
  cs <> [] -> pk k (cs ++ [c]) = pk k cs ++ sepc :: c.
Proof.
  intros H. unfold pk. rewrite (join_with_snoc c H), <- app_assoc. reflexivity.
Qed.

Lemma pk_ends_plain (k : nat) (cs : list str) :
  Forall seg cs -> cs <> [] -> ends_plain (pk k cs).
Proof.
  intros Hs Hne. destruct (exists_last Hne) as [cs' [c ->]].
  apply Forall_app in Hs. destruct Hs as [_ Hc]. inversion Hc as [| ? ? Hseg _]; subst.
  unfold pk. destruct cs' as [| a bs].
  - cbn. apply ends_plain_app, seg_ends_plain, Hseg.
  - rewrite join_with_snoc by discriminate.
    rewrite !app_assoc. apply ends_plain_app, seg_ends_plain, Hseg.
Qed.

Lemma firstn_app_exact {A} (a b : list A) : firstn (length a) (a ++ b) = a.
Proof.
  rewrite firstn_app, Nat.sub_diag, firstn_all. cbn. apply app_nil_r.
Qed.

Lemma skipn_app_exact {A} (a b : list A) : skipn (length a) (a ++ b) = b.
Proof.
  rewrite skipn_app, Nat.sub_diag, skipn_all. reflexivity.
Qed.

Lemma split_app (a c : str) :
  NoSep c ->
  split (a ++ sepc :: c) =
  (if eqb (a ++ [sepc]) (repeat sepc (length (a ++ [sepc])))
   then a ++ [sepc] else rstrip sepc (a ++ [sepc]), c).
Proof.
  intros Hc. unfold split. rewrite (rfind1_app a Hc).
  replace (a ++ sepc :: c) with ((a ++ [sepc]) ++ c)
    by (rewrite <- app_assoc; reflexivity).
  replace (S (length a)) with (length (a ++ [sepc]))
    by (rewrite length_app; cbn; lia).
  rewrite firstn_app_exact, skipn_app_exact.
  destruct (a ++ [sepc]) eqn:E; [destruct a; discriminate |].
  cbn [is_empty negb andb].
  destruct (eqb _ _); reflexivity.
Qed.

Lemma split_nosep (c : str) : NoSep c -> split c = ([], c).
Proof.
  intros Hc. unfold split. rewrite (rfind1_nosep Hc). reflexivity.
Qed.

Lemma repeat_snoc (k : nat) : repeat sepc (S k) = repeat sepc k ++ [sepc].
Proof. rewrite <- repeat_cons. reflexivity. Qed.

Lemma eqb_repeat_true (k : nat) :
  eqb (repeat sepc k) (repeat sepc (length (repeat sepc k))) = true.
Proof. apply eqb_repeat_sep, Forall_sep_repeat. Qed.

Lemma split_root (k : nat) : split (repeat sepc k) = (repeat sepc k, []).
Proof.
  destruct k as [| k]; [reflexivity |].
  rewrite repeat_snoc at 1. rewrite (split_app _ NoSep_nil).
  rewrite <- repeat_snoc, eqb_repeat_true. reflexivity.
Qed.

Lemma split_snoc (k : nat) (cs : list str) (c : str) :
  Forall seg cs -> seg c -> split (pk k (cs ++ [c])) = (pk k cs, c).
Proof.
  intros Hcs [Hne Hns]. destruct cs as [| a bs].
  - cbn [app]. unfold pk at 1. cbn [join_with]. rewrite pk_nil.
    destruct k as [| k]; [apply split_nosep, Hns |].
    rewrite repeat_snoc, <- app_assoc. cbn [app].
    rewrite (split_app _ Hns), <- repeat_snoc, eqb_repeat_true. reflexivity.
  - rewrite pk_snoc by discriminate. rewrite (split_app _ Hns).
    assert (Hp : ends_plain (pk k (a :: bs))) by (apply pk_ends_plain; [exact Hcs | discriminate]).
    assert (E : eqb (pk k (a :: bs) ++ [sepc])
                  (repeat sepc (length (pk k (a :: bs) ++ [sepc]))) = false).
    { apply not_true_is_false. intros H. apply eqb_repeat_sep in H.
      apply Forall_app in H. destruct H as [H _].
      exact (ends_plain_not_all_sep Hp H). }
    rewrite E, rstrip_snoc_sep, (rstrip_ends_plain Hp). reflexivity.
Qed.

Lemma split_path_loop_step (path : str) (folders : list str) :
  split_path_loop path folders =
  if is_empty (snd (split path)) then
    if is_empty (fst (split path)) then folders
    else folders ++ [fst (split path)]
  else split_path_loop (fst (split path)) (folders ++ [snd (split path)]).
Proof.
  rewrite split_path_loop_equation.
  destruct (split path) as [path' [| c r]]; reflexivity.
Qed.

Lemma split_path_loop_pk (k : nat) (cs : list str) (folders : list str) :
  Forall seg cs ->
  split_path_loop (pk k cs) folders = folders ++ rev cs ++ root_part k.
Proof.
  revert folders; induction cs as [| c cs IH] using rev_ind; intros folders Hs.
  - rewrite pk_nil, split_path_loop_step, split_root. cbn [fst snd is_empty].
    destruct k; cbn; [rewrite app_nil_r |]; reflexivity.
  - apply Forall_app in Hs. destruct Hs as [Hcs Hc].
    inversion Hc as [| ? ? Hseg _]; subst.
    rewrite split_path_loop_step, (split_snoc k Hcs Hseg). cbn [fst snd].
    destruct Hseg as [Hne _]. apply is_empty_false in Hne. rewrite Hne.
    rewrite (IH _ Hcs), rev_app_distr, <- !app_assoc. reflexivity.
Qed.

Lemma split_path_parts (start : str) (k : nat) (cs : list str) :
  normpath start = pk k cs -> Forall seg cs -> (k <> 0 \/ cs <> []) ->
  split_path start = parts_of k cs.
Proof.
  intros Hn Hs Hk. unfold split_path. rewrite Hn. cbn [splitdrive is_empty].
  destruct cs as [| c0 cs0] using rev_ind.
  - rewrite pk_nil, split_root.
    rewrite <- (pk_nil k), (split_path_loop_pk k [[]] (Forall_nil _)).
    destruct k as [| k]; [destruct Hk; congruence |]. reflexivity.
  - clear IHcs0. apply Forall_app in Hs. destruct Hs as [Hcs Hc].
    inversion Hc as [| ? ? Hseg _]; subst.
    rewrite (split_snoc k Hcs Hseg), (split_path_loop_pk k [c0] Hcs).
    cbn [app]. unfold parts_of, root_part.
    replace (match cs0 ++ [c0] with [] => [[]] | _ :: _ => cs0 ++ [c0] end)
      with (cs0 ++ [c0]) by (destruct cs0; reflexivity).
    cbn [rev]. rewrite rev_app_distr, rev_involutive.
    destruct k; cbn; rewrite <- ?app_assoc; reflexivity.
Qed.

Lemma join_plain (a : str) (bs : list str) :
  ends_plain a -> Forall seg bs ->
  join a bs = a ++ concat (map (fun b => sep ++ b) bs).
Proof.
  revert a; induction bs as [| b bs IH]; intros a Ha Hs.
  - cbn. rewrite app_nil_r. reflexivity.
  - inversion Hs as [| ? ? Hb Hbs]; subst.
    unfold join. cbn [fold_left]. unfold join_step at 2.
    rewrite (startswith_seg Hb), (endswith_ends_plain Ha).
    apply ends_plain_nonempty, is_empty_false in Ha as Hne. rewrite Hne.
    cbn [orb]. fold (join (a ++ sep ++ b) bs). rewrite IH.
    + cbn [map concat]. rewrite <- !app_assoc. reflexivity.
    + rewrite app_assoc. apply ends_plain_app, seg_ends_plain, Hb.
    + exact Hbs.
Qed.

Lemma endswith_root (k : nat) : endswith (repeat sepc (S k)) sep = true.
Proof. rewrite repeat_snoc, endswith_snoc. apply Ascii.eqb_refl. Qed.

Lemma join_all_parts (k : nat) (cs : list str) :
  Forall seg cs -> (k <> 0 \/ cs <> []) -> join_all (parts_of k cs) = pk k cs.
Proof.
  intros Hs Hk. unfold parts_of, pk. destruct k as [| k].
  - destruct cs as [| c bs]; [destruct Hk; congruence |].
    inversion Hs as [| ? ? Hc Hbs]; subst. cbn [app repeat join_all].
    rewrite (join_plain (seg_ends_plain Hc) Hbs), join_with_cons. reflexivity.
  - cbn [app join_all]. destruct cs as [| c bs].
    + unfold join. cbn [fold_left]. unfold join_step.
      rewrite (endswith_root k), orb_true_r. reflexivity.
    + inversion Hs as [| ? ? Hc Hbs]; subst.
      unfold join. cbn [fold_left]. unfold join_step at 2.
      rewrite (startswith_seg Hc), (endswith_root k), orb_true_r.
      fold (join (repeat sepc (S k) ++ c) bs).
      rewrite join_plain; [| apply ends_plain_app, seg_ends_plain, Hc | exact Hbs].
      rewrite join_with_cons, <- app_assoc. reflexivity.
Qed.

(** *** [str.split] and [str.join] *)



Lemma split_on_NoSep (s : str) : Forall NoSep (split_on sepc s).
Proof.
  induction s as [| x s IH]; [repeat constructor; apply NoSep_nil |].
  cbn [split_on]. destruct (Ascii.eqb x sepc) eqn:E.
  - constructor; [apply NoSep_nil | exact IH].
  - apply sepc_eqb in E. destruct (split_on sepc s) as [| h t].
    + repeat constructor. apply NoSep_cons. split; [exact E | apply NoSep_nil].
    + inversion IH; subst. constructor; [| assumption].
      apply NoSep_cons. split; assumption.
Qed.



(** *** The components [normpath] keeps *)

Lemma good_seg (c : str) : good c -> seg c.
Proof. intros [H _]; exact H. Qed.

Lemma Forall_good_seg (cs : list str) : Forall good cs -> Forall seg cs.
Proof. intros H. eapply Forall_impl; [| exact H]. exact good_seg. Qed.

Lemma In_removelast {A} (x : A) (l : list A) : In x (removelast l) -> In x l.
Proof.
  induction l as [| a l IH]; [intros [] |].
  cbn [removelast]. destruct l as [| b l]; [intros [] |].
  intros [-> | H]; [left; reflexivity | right; apply IH, H].
Qed.

Lemma last_In {A} (l : list A) (d : A) : l <> [] -> In (last l d) l.
Proof.
  induction l as [| a l IH]; [congruence |]. intros _.
  destruct l as [| b l]; [left; reflexivity |].
  right. apply IH. discriminate.
Qed.

Lemma dd_snoc_other (acc : list str) (c : str) :
  dd_first acc -> c <> dotdot -> dd_first (acc ++ [c]).
Proof.
  intros Hd Hc. induction acc as [| a r IH]; cbn [app dd_first] in *.
  - apply eqb_neq in Hc. rewrite Hc. intros [].
  - destruct (eqb a dotdot); [apply IH, Hd |].
    intros H. apply in_app_or in H. destruct H as [H | [H | []]]; [apply Hd, H |].
    congruence.
Qed.

Lemma dd_snoc_dotdot (acc : list str) :
  dd_first acc -> acc = [] \/ last acc [] = dotdot -> dd_first (acc ++ [dotdot]).
Proof.
  induction acc as [| a r IH]; intros Hd Hl; cbn [app dd_first] in *.
  - rewrite eqb_refl. exact I.
  - destruct Hl as [Hl | Hl]; [discriminate |].
    destruct (eqb a dotdot) eqn:Ea.
    + apply IH; [exact Hd |]. destruct r; [left; reflexivity | right; exact Hl].
    + exfalso. destruct r as [| b r].
      * cbn [last] in Hl. apply eqb_neq in Ea. congruence.
      * apply Hd. rewrite <- Hl. apply (last_In (l := b :: r)). discriminate.
Qed.

Lemma dd_first_cons (c : str) (r : list str) :
  dd_first (c :: r) = if eqb c dotdot then dd_first r else ~ In dotdot r.
Proof. reflexivity. Qed.

Lemma dd_removelast (acc : list str) : dd_first acc -> dd_first (removelast acc).
Proof.
  induction acc as [| a r IH]; [trivial |]. intros H.
  destruct r as [| b r]; [exact I |].
  change (removelast (a :: b :: r)) with (a :: removelast (b :: r)).
  rewrite dd_first_cons in H |- *. destruct (eqb a dotdot).
  - apply IH, H.
  - intros Hin. apply H, In_removelast, Hin.
Qed.


Lemma normal_nil (k : nat) : normal k [].
Proof. split; [constructor |]. destruct k; [exact I | intros []]. Qed.

Lemma norm_step_skip (k : nat) (acc : list str) : norm_step k acc [] = acc.
Proof. reflexivity. Qed.

Lemma norm_step_normal (k : nat) (acc : list str) (comp : str) :
  normal k acc -> NoSep comp -> normal k (norm_step k acc comp).
Proof.
  intros [Hg Hd] Hns. unfold norm_step.
  destruct (eqb comp []) eqn:E0; [split; assumption |].
  destruct (eqb comp (lit ".")) eqn:E1; [split; assumption |].
  cbn [orb]. apply eqb_neq in E0, E1.
  assert (Hgood : good comp) by (repeat split; assumption).
  fold dotdot.
  destruct (negb (eqb comp dotdot) || _ || _) eqn:Ec.
  - split; [apply Forall_app; split; [exact Hg | constructor; [exact Hgood | constructor]] |].
    destruct (eqb comp dotdot) eqn:Edd.
    + apply eqb_eq in Edd. subst comp. cbn [negb orb] in Ec.
      apply orb_true_iff in Ec. destruct k as [| k].
      * apply dd_snoc_dotdot; [exact Hd |].
        destruct Ec as [Ec | Ec].
        -- destruct acc; [left; reflexivity | discriminate].
        -- apply andb_true_iff in Ec. destruct Ec as [_ Ec].
           right. apply eqb_eq, Ec.
      * exfalso. destruct Ec as [Ec | Ec]; [discriminate |].
        apply andb_true_iff in Ec. destruct Ec as [Hne Ec].
        apply eqb_eq in Ec. apply Hd. rewrite <- Ec. apply last_In.
        destruct acc; [discriminate | discriminate].
    + apply eqb_neq in Edd. destruct k as [| k].
      * apply dd_snoc_other; assumption.
      * intros H. apply in_app_or in H. destruct H as [H | [H | []]]; [apply Hd, H |].
        congruence.
  - split.
    + apply Forall_forall. intros x Hx. apply In_removelast in Hx.
      revert x Hx. apply Forall_forall, Hg.
    + destruct k as [| k]; [apply dd_removelast, Hd |].
      intros H. apply Hd, In_removelast, H.
Qed.

Lemma fold_norm_normal (k : nat) (comps acc : list str) :
  Forall NoSep comps -> normal k acc ->
  normal k (fold_left (norm_step k) comps acc).
Proof.
  revert acc; induction comps as [| c comps IH]; intros acc Hc Ha; [exact Ha |].
  inversion Hc; subst. cbn [fold_left]. apply IH; [assumption |].
  apply norm_step_normal; assumption.
Qed.



(** *** The shape of a normal path *)

Lemma norm_comps_normal (path : str) : normal (initial_slashes path) (norm_comps path).
Proof. apply fold_norm_normal; [apply split_on_NoSep | apply normal_nil]. Qed.


Lemma join_with_nonempty (cs : list str) :
  Forall seg cs -> cs <> [] -> join_with sep cs <> [].
Proof.
  intros Hs Hne. destruct cs as [| c bs]; [congruence |].
  inversion Hs as [| ? ? [Hc _] _]; subst. rewrite join_with_cons.
  destruct c; [congruence | discriminate].
Qed.

Lemma pk_empty (k : nat) (cs : list str) :
  Forall seg cs -> pk k cs = [] -> k = 0 /\ cs = [].
Proof.
  intros Hs H. unfold pk in H. apply app_eq_nil in H. destruct H as [Hk Hj].
  split; [destruct k; [reflexivity | discriminate] |].
  destruct cs as [| c bs]; [reflexivity |].
  exfalso. apply (join_with_nonempty Hs); [discriminate | exact Hj].
Qed.

Lemma normpath_cases (path : str) :
  (normpath path = lit "." /\ (path = [] \/ initial_slashes path = 0))
  \/ (normpath path = pk (initial_slashes path) (norm_comps path)
      /\ (initial_slashes path <> 0 \/ norm_comps path <> [])).
Proof.
  unfold normpath. destruct path as [| x path]; [left; split; [reflexivity | left; reflexivity] |].
  cbn [is_empty]. fold (norm_comps (x :: path)).
  fold (pk (initial_slashes (x :: path)) (norm_comps (x :: path))).
  pose proof (norm_comps_normal (x :: path)) as [Hg _].
  apply Forall_good_seg in Hg.
  destruct (pk _ _) as [| y r] eqn:E.
  - left. split; [reflexivity |]. right. exact (proj1 (pk_empty _ Hg E)).
  - right. cbn [is_empty]. split; [reflexivity |].
    destruct (initial_slashes (x :: path)) as [| k]; [| left; discriminate].
    right. intros Hn. rewrite Hn in E. discriminate.
Qed.

Lemma seg_dot : seg (lit ".").
Proof.
  split; [discriminate |]. intros [H | []]. discriminate.
Qed.

Lemma absolute_initial_slashes (path : str) :
  absolute path = true -> initial_slashes path <> 0.
Proof.
  unfold absolute, initial_slashes. intros ->. destruct (_ && _); discriminate.
Qed.

(** The normal form of any path is [k] slashes and a list of segments. *)
Lemma normpath_shape (path : str) :
  exists k cs,
    normpath path = pk k cs /\ Forall seg cs /\ (k <> 0 \/ cs <> [])
    /\ (absolute path = true -> k <> 0).
Proof.
  destruct (normpath_cases path) as [[E Hk] | [E Hk]].
  - exists 0, [lit "."]. repeat split.
    + exact E.
    + constructor; [exact seg_dot | constructor].
    + right; discriminate.
    + intros Ha. destruct Hk as [-> | Hk]; [discriminate |].
      exfalso. exact (absolute_initial_slashes _ Ha Hk).
  - exists (initial_slashes path), (norm_comps path). repeat split.
    + exact E.
    + apply Forall_good_seg. exact (proj1 (norm_comps_normal path)).
    + exact Hk.
    + apply absolute_initial_slashes.
Qed.



Lemma startswith_cons_sep (s p : str) :
  startswith (sepc :: s) (sepc :: p) = startswith s p.
Proof. cbn [startswith]. rewrite Ascii.eqb_refl. reflexivity. Qed.

Lemma startswith_nil (s : str) : startswith s [] = true.
Proof. destruct s; reflexivity. Qed.




(** What [split_path] returns joins back to the normal form of its
    argument. *)
Lemma join_split_path (path : str) :
  join_all (split_path path) = normpath path.
Proof.
  destruct (normpath_shape path) as [k [cs [E [Hs [Hk _]]]]].
  rewrite (split_path_parts _ E Hs Hk), (join_all_parts Hs Hk), E. reflexivity.
Qed.

End PathFacts.

(* ------------------------------------------------------------------ *)
(** ** Windows paths *)

Section DriveFacts.







(** *** Joining with the separator *)









(** *** [splitdrive] *)






(** *** [split] *)







(** *** [split_path] *)






(** *** [join] *)





(** *** [normpath] *)









(** *** The bare separator *)



End DriveFacts.

(* ------------------------------------------------------------------ *)
(** ** The claim on [split_path] *)







(* ------------------------------------------------------------------ *)
(** ** Absolute paths stay absolute *)

Lemma absolute_cons (p : str) :
  absolute p = true <-> exists r, p = posixpath.sepc :: r.
Proof.
  unfold absolute, posixpath.sep. destruct p as [| c r]; cbn [startswith].
  - split; [discriminate | intros [r H]; discriminate].
  - rewrite startswith_nil, andb_true_r, Ascii.eqb_eq. split.
    + intros ->. eauto.
    + intros [r' [= -> _]]. reflexivity.
Qed.

Lemma absolute_app (p q : str) : absolute p = true -> absolute (p ++ q) = true.
Proof.
  intros H. apply absolute_cons in H. destruct H as [r ->].
  apply absolute_cons. exists (r ++ q). reflexivity.
Qed.

Lemma join_step_absolute (a b : str) :
  absolute a = true -> absolute (posixpath.join_step a b) = true.
Proof.
  intros H. unfold posixpath.join_step.
  destruct (startswith b posixpath.sep) eqn:E; [exact E |].
  destruct (_ || _); apply absolute_app, H.
Qed.

Lemma join_absolute (a : str) (bs : list str) :
  absolute a = true -> absolute (posixpath.join a bs) = true.
Proof.
  revert a; induction bs as [| b bs IH]; intros a H; [exact H |].
  apply IH, join_step_absolute, H.
Qed.

Lemma normpath_absolute (p : str) :
  absolute p = true -> absolute (posixpath.normpath p) = true.
Proof.
  intros H. destruct (normpath_shape p) as [k [cs [E [_ [_ Hk]]]]].
  rewrite E. specialize (Hk H). destruct k as [| k]; [congruence |].
  apply absolute_cons. eexists. reflexivity.
Qed.

Lemma node_modules_paths_absolute (start d : str) :
  absolute start = true -> In d (node_modules_paths start) -> absolute d = true.
Proof.
  intros H Hin. rewrite node_modules_paths_eq in Hin.
  apply in_map_iff in Hin. destruct Hin as [j [<- Hj]].
  apply in_rev, in_seq in Hj.
  destruct (normpath_shape start) as [k [cs [E [Hs [Hne Hk]]]]].
  rewrite (split_path_parts _ E Hs Hne). specialize (Hk H).
  destruct k as [| k]; [congruence |]. destruct j as [| j]; [lia |].
  unfold parts_of. cbn [app firstn posixpath.join_all].
  apply join_absolute, absolute_cons. eexists. reflexivity.
Qed.

Section AbsoluteResults.

Variable fs : filesystem.
Variable js : str -> option json.
Variable exts : list str.

Lemma load_as_file_absolute (path f : str) :
  absolute path = true ->
  result (load_as_file fs exts path) = Ok (Some f) -> absolute f = true.
Proof.
  intros Ha H. apply load_as_file_some in H.
  destruct H as [_ [-> | [e [_ ->]]]]; [exact Ha | apply absolute_app, Ha].
Qed.

Lemma load_index_absolute (path f : str) :
  absolute path = true ->
  result (load_index fs exts path) = Ok (Some f) -> absolute f = true.
Proof.
  intros Ha H. apply load_index_some in H.
  destruct H as [_ [e [_ ->]]]. apply join_absolute, Ha.
Qed.

Lemma manifest_entry_absolute (path M : str) :
  absolute path = true -> manifest_entry fs js path = Ok M -> absolute M = true.
Proof.
  intros Ha. unfold manifest_entry.
  destruct (fs_read fs _); [| discriminate].
  destruct (js _) as [[] |]; try discriminate.
  destruct (dict_get _ _ _); try discriminate.
  intros [= <-]. apply join_step_absolute, Ha.
Qed.

Lemma por_files_absolute (path f : str) :
  absolute path = true ->
  result (por (load_as_file fs exts path) (load_index fs exts path)) = Ok (Some f) ->
  absolute f = true.
Proof.
  intros Ha. rewrite result_por.
  destruct (result (load_as_file fs exts path)) as [[g |] | e] eqn:E; [| | discriminate].
  - destruct (truthy (Some g)).
    + intros [= <-]. exact (load_as_file_absolute _ Ha E).
    + apply load_index_absolute, Ha.
  - apply load_index_absolute, Ha.
Qed.

Lemma load_as_directory_absolute (path f : str) :
  absolute path = true ->
  result (load_as_directory fs js exts path) = Ok (Some f) -> absolute f = true.
Proof.
  intros Ha. rewrite load_as_directory_result.
  destruct (_ && _).
  - destruct (manifest_entry fs js path) as [M | e] eqn:E; [| discriminate].
    apply por_files_absolute. exact (manifest_entry_absolute _ Ha E).
  - apply load_index_absolute, Ha.
Qed.

Lemma attempt_absolute (path f : str) :
  absolute path = true ->
  result (por (load_as_file fs exts path) (load_as_directory fs js exts path)) = Ok (Some f) ->
  absolute f = true.
Proof.
  intros Ha. rewrite result_por.
  destruct (result (load_as_file fs exts path)) as [[g |] | e] eqn:E; [| | discriminate].
  - destruct (truthy (Some g)).
    + intros [= <-]. exact (load_as_file_absolute _ Ha E).
    + apply load_as_directory_absolute, Ha.
  - apply load_as_directory_absolute, Ha.
Qed.

Lemma load_node_modules_loop_absolute (module : str) (dirs : list str) (f : str) :
  (forall d, In d dirs -> absolute d = true) ->
  result (load_node_modules_loop fs js exts module dirs) = Ok (Some f) ->
  absolute f = true.
Proof.
  induction dirs as [| d dirs IH]; intros Hd; [discriminate |].
  cbn [load_node_modules_loop]. rewrite result_bind.
  destruct (result (por _ _)) as [[g |] | e] eqn:E; [| | discriminate].
  - destruct (truthy (Some g)).
    + intros [= <-]. apply (@attempt_absolute (posixpath.join d [module])); [| exact E].
      apply join_absolute, Hd. left; reflexivity.
    + apply IH. intros d' H. apply Hd. right; exact H.
  - apply IH. intros d' H. apply Hd. right; exact H.
Qed.

Lemma find_require_module_absolute (module file_path f : str) :
  absolute file_path = true -> is_core module = false ->
  result (find_require_module fs js exts module file_path) = Ok (Some f) ->
  absolute f = true.
Proof.
  intros Ha Hc. unfold find_require_module. rewrite Hc.
  destruct (startswith module (lit ".")).
  - apply attempt_absolute, normpath_absolute, join_absolute, Ha.
  - apply load_node_modules_loop_absolute.
    intros d. apply node_modules_paths_absolute, Ha.
Qed.

Lemma alias_search_absolute (module pp : str) (roots es : list str) (p : str) :
  absolute pp = true -> In p (alias_search module pp roots es) -> absolute p = true.
Proof.
  intros Ha H. unfold alias_search in H.
  apply in_flat_map in H. destruct H as [root [_ H]].
  apply in_flat_map in H. destruct H as [e [_ H]].
  unfold alias_candidates in H.
  destruct H as [<- | [<- | [<- | []]]]; apply join_absolute, join_absolute, Ha.
Qed.

Lemma find_module_raises (w : window) (module fp pp : str) (e : exn) :
  ctx_file_path w = Some fp -> ctx_project_path w = Some pp ->
  result (find_require_module fs js exts module fp) = Raise e ->
  result (find_module fs js exts w module) = Raise e.
Proof.
  intros Hfp Hpp H.
  rewrite (@find_module_unfold fs js exts w module fp pp Hfp Hpp), result_bind, H.
  reflexivity.
Qed.

End AbsoluteResults.

(* ------------------------------------------------------------------ *)
(** ** The claim on core modules and on the output *)

(** C3. For every member of [CORE_MODULES], [find_require_module] returns
    that very string and makes no access to the file system.  And the
    output of the resolution, for a requesting directory (and project
    root) given as absolute paths, is not-found, or the name of the core
    module asked for, or an absolute path that names an existing regular
    file: so for [find_require_module], and so for [find_module], which
    filters it through [returnIfFile] and the alias search. *)
Theorem core_module_resolves_to_its_name :
  (forall fs js exts module file_path,
     In module CORE_MODULES ->
     find_require_module fs js exts module file_path = (Ok (Some module), []))
  /\ (forall fs js exts module file_path r,
        absolute file_path = true ->
        result (find_require_module fs js exts module file_path) = Ok r ->
        r = None
        \/ (r = Some module /\ In module CORE_MODULES)
        \/ (exists p, r = Some p /\ absolute p = true /\ exists_file fs p = true))
  /\ (forall fs js exts w module fp pp r,
        ctx_file_path w = Some fp -> ctx_project_path w = Some pp ->
        absolute fp = true -> absolute pp = true ->
        result (find_module fs js exts w module) = Ok r ->
        r = None
        \/ (r = Some module /\ In module CORE_MODULES)
        \/ (exists p, r = Some p /\ absolute p = true /\ exists_file fs p = true)).
Proof.
  assert (Hprim : forall fs js exts module file_path r,
        absolute file_path = true ->
        result (find_require_module fs js exts module file_path) = Ok r ->
        r = None
        \/ (r = Some module /\ In module CORE_MODULES)
        \/ (exists p, r = Some p /\ absolute p = true /\ exists_file fs p = true)).
  { intros fs js exts module file_path [p |] Ha H; [| left; reflexivity].
    right. destruct (find_require_module_some _ _ _ _ _ H) as [[Hc ->] | [Hc Hf]].
    - left. split; [reflexivity | apply is_core_In, Hc].
    - right. exists p. split; [reflexivity |]. split; [| exact Hf].
      exact (find_require_module_absolute _ _ _ _ _ Ha Hc H). }
  split; [| split; [exact Hprim |]].
  - intros fs js exts module file_path Hin. unfold find_require_module.
    apply is_core_In in Hin. rewrite Hin. reflexivity.
  - intros fs js exts w module fp pp r Hfp Hpp Ha Hb H.
    destruct (result (find_require_module fs js exts module fp)) as [m | e] eqn:Em.
    + destruct (is_existing fs m) eqn:Ex.
      * rewrite (@find_module_of_existing fs js exts w module fp pp m Hfp Hpp Em Ex) in H.
        injection H as <-. exact (Hprim _ _ _ _ _ _ Ha Em).
      * rewrite (find_module_fallback_result _ _ _ _ _ Hfp Hpp Em Ex) in H.
        injection H as <-.
        destruct (webpack_resolve_modules w) as [roots |]; [| left; reflexivity].
        destruct (find _ _) as [p |] eqn:Ef; [| left; reflexivity].
        apply find_some in Ef. destruct Ef as [Hin Hp].
        right. right. exists p. split; [reflexivity |]. split; [| exact Hp].
        exact (alias_search_absolute _ _ _ _ _ Hb Hin).
    + rewrite (@find_module_raises fs js exts w module fp pp e Hfp Hpp Em) in H.
      discriminate.
Qed.

Lemma core_module_resolves_to_its_name_witness :
  find_require_module fs_alias json_of js_exts "fs" "/p" = (Ok (Some (lit "fs")), [])
  /\ (Some (lit "/p/foo") = None
      \/ (Some (lit "/p/foo") = Some (lit "./foo") /\ In (lit "./foo") CORE_MODULES)
      \/ (exists p, Some (lit "/p/foo") = Some p /\ absolute p = true
                    /\ exists_file fs_foo p = true))
  /\ (@None str = None
      \/ (None = Some (lit "fs") /\ In (lit "fs") CORE_MODULES)
      \/ (exists p, None = Some p /\ absolute p = true
                    /\ exists_file fs_none p = true)).
Proof.
  split; [| split].
  - apply (proj1 core_module_resolves_to_its_name fs_alias json_of js_exts
             (lit "fs") (lit "/p")).
    vm_compute. do 9 right. left. reflexivity.
  - apply (proj1 (proj2 core_module_resolves_to_its_name) fs_foo json_of js_exts
             (lit "./foo") (lit "/p") (Some (lit "/p/foo"))); reflexivity.
  - apply (proj2 (proj2 core_module_resolves_to_its_name) fs_none json_of js_exts
             (window_of None) (lit "fs") (lit "/p") (lit "/p") None); reflexivity.
Defined.

(* ================================================================== *)
(** * Further properties of the resolver *)

Lemma result_bind_ok {A B} (m : M A) (f : A -> M B) (x : B) :
  result (bind m f) = Ok x -> exists a, result m = Ok a /\ result (f a) = Ok x.
Proof.
  rewrite result_bind. destruct (result m) as [a | e]; [| discriminate].
  intros H. exists a. split; [reflexivity | exact H].
Qed.

Lemma result_returnIfFile_some (fs : filesystem) (m : option str) (p : str) :
  result (returnIfFile fs m None) = Ok (Some p) -> exists_file fs p = true.
Proof.
  destruct m as [q |]; [| discriminate].
  rewrite result_returnIfFile_plain.
  destruct (exists_file fs q) eqn:E; [| discriminate].
  intros [= <-]. exact E.
Qed.

(* ------------------------------------------------------------------ *)
(** ** Directories *)

(** X1. A directory that has no manifest file resolves to its index: for a
    non-empty path, the result of [load_as_directory] is the first of
    [path/index + extension], in the order of the extensions, that is a
    regular file, and not-found when none is. *)
Theorem directory_without_manifest_is_its_index (fs : filesystem)
    (js : str -> option json) (exts : list str) (path : str) :
  is_empty path = false ->
  fs_isfile fs (manifest_path path) = false ->
  result (load_as_directory fs js exts path) =
  Ok (find (fs_isfile fs)
        (map (fun e => posixpath.join path [lit "index" ++ e]) exts)).
Proof.
  intros Hne Hf. rewrite load_as_directory_result. unfold exists_file.
  rewrite Hf, andb_false_r. cbn [andb]. unfold load_index.
  apply load_index_loop_result, is_empty_false, Hne.
Qed.

Lemma directory_without_manifest_is_its_index_witness :
  result (load_as_directory fs_only_index json_of js_json_exts "/p/dir") =
  Ok (Some (lit "/p/dir/index.json")).
Proof.
  apply (@directory_without_manifest_is_its_index fs_only_index json_of
           js_json_exts "/p/dir"); reflexivity.
Defined.

Lemma manifest_result (fs : filesystem) (js : str -> option json) (exts : list str)
    (path text : str) (items : list (str * json)) (m : str) :
  is_empty path = false ->
  fs_isfile fs (manifest_path path) = true ->
  fs_read fs (manifest_path path) = Some text ->
  js text = Some (JObject items) ->
  dict_get items (lit "main") (JString (lit "index.js")) = JString m ->
  result (load_as_directory fs js exts path) =
  result (por (load_as_file fs exts (posixpath.join path [m]))
              (load_index fs exts (posixpath.join path [m]))).
Proof.
  intros Hne Hf Hread Hjs Hmain.
  rewrite load_as_directory_result. unfold exists_file. rewrite Hf, Hne.
  assert (Hp : is_empty (manifest_path path) = false)
    by (apply is_empty_false, join_one_nonempty, is_empty_false, Hne).
  rewrite Hp. cbn [negb andb].
  unfold manifest_entry. rewrite Hread, Hjs, Hmain. reflexivity.
Qed.

(** X2. In a directory with a manifest, a failed entry is final: when
    neither the entry [M] (with or without an extension) nor an index
    under [M] is a file, [load_as_directory] answers not-found, also when
    the directory itself holds an index file that [load_index] would
    find. *)
Theorem failed_manifest_entry_is_final (fs : filesystem) (js : str -> option json)
    (exts : list str) (path text : str) (items : list (str * json)) (m : str) :
  is_empty path = false ->
  fs_isfile fs (manifest_path path) = true ->
  fs_read fs (manifest_path path) = Some text ->
  js text = Some (JObject items) ->
  dict_get items (lit "main") (JString (lit "index.js")) = JString m ->
  result (load_as_file fs exts (posixpath.join path [m])) = Ok None ->
  result (load_index fs exts (posixpath.join path [m])) = Ok None ->
  result (load_as_directory fs js exts path) = Ok None.
Proof.
  intros Hne Hf Hread Hjs Hmain Hfile Hindex.
  rewrite (@manifest_result fs js exts path text items m Hne Hf Hread Hjs Hmain).
  rewrite result_por, Hfile.
  exact Hindex.
Qed.

Lemma failed_manifest_entry_is_final_witness :
  result (load_index fs_index_json js_json_exts "/p/dir") =
    Ok (Some (lit "/p/dir/index.json"))
  /\ result (load_as_directory fs_index_json json_of js_json_exts "/p/dir") = Ok None.
Proof.
  split; [reflexivity |].
  apply (@failed_manifest_entry_is_final fs_index_json json_of js_json_exts
           "/p/dir" "{}" [] "index.js"); reflexivity.
Defined.

Lemma dict_get_missing (items : list (str * json)) (key : str) (default : json) :
  forallb (fun kv => negb (eqb (fst kv) key)) items = true ->
  dict_get items key default = default.
Proof.
  induction items as [| [k v] items IH]; [reflexivity |].
  cbn [forallb fst dict_get]. intros H. apply andb_true_iff in H.
  destruct H as [Hk Hrest]. apply negb_true_iff in Hk. rewrite Hk.
  apply IH, Hrest.
Qed.

(** X3. A manifest without a [main] field stands for [index.js]: when the
    manifest is a JSON object with no key [main] and the directory holds a
    regular file [index.js], that file is the result of
    [load_as_directory]. *)
Theorem manifest_without_main_is_index_js (fs : filesystem) (js : str -> option json)
    (exts : list str) (path text : str) (items : list (str * json)) :
  is_empty path = false ->
  fs_isfile fs (manifest_path path) = true ->
  fs_read fs (manifest_path path) = Some text ->
  js text = Some (JObject items) ->
  forallb (fun kv => negb (eqb (fst kv) (lit "main"))) items = true ->
  fs_isfile fs (posixpath.join path [lit "index.js"]) = true ->
  result (load_as_directory fs js exts path) =
  Ok (Some (posixpath.join path [lit "index.js"])).
Proof.
  intros Hne Hf Hread Hjs Hkeys Hindex.
  rewrite (@manifest_result fs js exts path text items (lit "index.js") Hne Hf Hread Hjs
             (dict_get_missing _ _ _ Hkeys)).
  rewrite result_por, load_as_file_result. cbn [find].
  assert (Hex : exists_file fs (posixpath.join path [lit "index.js"]) = true).
  { unfold exists_file. rewrite Hindex, andb_true_r.
    apply negb_true_iff, is_empty_false, join_one_nonempty, is_empty_false, Hne. }
  rewrite Hex, (truthy_exists _ _ Hex). reflexivity.
Qed.

Lemma manifest_without_main_is_index_js_witness :
  result (load_as_directory fs_index_js json_of js_exts "/p/dir") =
  Ok (Some (lit "/p/dir/index.js")).
Proof.
  apply (@manifest_without_main_is_index_js fs_index_js json_of js_exts
           "/p/dir" "{}" []); reflexivity.
Defined.

(** X4. A manifest that cannot be used makes [load_as_directory] raise,
    right after the probe and the read of the manifest and before any
    other probe: so when the file cannot be read, when its JSON is not an
    object, and when its [main] is not a string.  The exception is not the
    one of malformed JSON. *)
Theorem unusable_manifest_raises (fs : filesystem) (js : str -> option json)
    (exts : list str) (path : str) :
  is_empty path = false ->
  fs_isfile fs (manifest_path path) = true ->
  fs_read fs (manifest_path path) = None
  \/ (exists text v, fs_read fs (manifest_path path) = Some text /\ js text = Some v
                     /\ forall items, v <> JObject items)
  \/ (exists text items, fs_read fs (manifest_path path) = Some text
                     /\ js text = Some (JObject items)
                     /\ forall m, dict_get items (lit "main") (JString (lit "index.js"))
                                  <> JString m) ->
  exists e, e <> JSONDecodeError
    /\ load_as_directory fs js exts path =
       (Raise e, [Isfile (manifest_path path); Open (manifest_path path)]).
Proof.
  intros Hne Hf Hbad.
  assert (Hp : manifest_path path <> [])
    by (apply join_one_nonempty, is_empty_false, Hne).
  unfold load_as_directory.
  rewrite returnIfFile_sub by (try apply is_empty_false; trivial; discriminate).
  fold (manifest_path path). rewrite Hf. cbn [bind].
  destruct (manifest_path path) as [| c r] eqn:Epj; [congruence |].
  cbn [truthy]. unfold open_read.
  destruct Hbad as [Hread | [[text [v [Hread [Hjs Hv]]]] | [text [items [Hread [Hjs Hmain]]]]]];
    rewrite Hread; cbn [bind].
  - exists OSError. split; [discriminate | reflexivity].
  - unfold json_load. rewrite Hjs. cbn [bind ret].
    exists AttributeError. split; [discriminate |].
    destruct v; try reflexivity. exfalso. exact (Hv _ eq_refl).
  - unfold json_load. rewrite Hjs. cbn [bind ret get_main].
    exists TypeError. split; [discriminate |].
    destruct (dict_get items (lit "main") (JString (lit "index.js"))) eqn:Ed;
      try reflexivity.
    exfalso. exact (Hmain _ eq_refl).
Qed.

Lemma unusable_manifest_raises_witness :
  exists e, e <> JSONDecodeError
    /\ load_as_directory fs_array_manifest json_more js_exts "/p/dir" =
       (Raise e, [Isfile (manifest_path "/p/dir"); Open (manifest_path "/p/dir")]).
Proof.
  apply (@unusable_manifest_raises fs_array_manifest json_more js_exts "/p/dir");
    [reflexivity | reflexivity |].
  right. left. exists (lit "[]"), (JArray []).
  split; [reflexivity |]. split; [reflexivity |]. discriminate.
Defined.

(* ------------------------------------------------------------------ *)
(** ** The search through [node_modules] *)

(** X5. An exception stops the search through [node_modules]: when the
    directories before [d] resolve nothing and the attempt in [d] raises
    (a broken manifest there), [load_node_modules] raises it, whatever the
    directories after [d] hold, and so do [find_require_module], for a
    bare specifier, and [find_module]. *)
Theorem exception_stops_the_search (fs : filesystem) (js : str -> option json)
    (exts : list str) (module start : str) (dirs1 : list str) (d : str)
    (dirs2 : list str) (e : exn) :
  node_modules_paths start = dirs1 ++ d :: dirs2 ->
  (forall d', In d' dirs1 -> result (attempt fs js exts module d') = Ok None) ->
  result (attempt fs js exts module d) = Raise e ->
  result (load_node_modules fs js exts module start) = Raise e
  /\ (is_core module = false -> startswith module (lit ".") = false ->
      result (find_require_module fs js exts module start) = Raise e
      /\ forall w pp, ctx_file_path w = Some start -> ctx_project_path w = Some pp ->
           result (find_module fs js exts w module) = Raise e).
Proof.
  intros Hdirs Hnone Hd.
  assert (E : result (load_node_modules fs js exts module start) = Raise e).
  { unfold load_node_modules. rewrite Hdirs.
    rewrite load_node_modules_loop_skip by exact Hnone.
    rewrite load_node_modules_loop_eq, result_bind, Hd. reflexivity. }
  split; [exact E |]. intros Hc Hdot.
  assert (E' : result (find_require_module fs js exts module start) = Raise e).
  { unfold find_require_module. rewrite Hc, Hdot. exact E. }
  split; [exact E' |]. intros w pp Hfp Hpp.
  exact (@find_module_raises fs js exts w module start pp e Hfp Hpp E').
Qed.

Lemma exception_stops_the_search_witness :
  exists_file fs_shadowed "/a/node_modules/pkg/index.js" = true
  /\ result (load_node_modules fs_shadowed json_of js_exts "pkg" "/a/b/c") =
     Raise JSONDecodeError.
Proof.
  split; [reflexivity |].
  refine (proj1 (@exception_stops_the_search fs_shadowed json_of js_exts
            (lit "pkg") (lit "/a/b/c") [lit "/a/b/c/node_modules"]
            (lit "/a/b/node_modules") [lit "/a/node_modules"; lit "/node_modules"]
            JSONDecodeError _ _ _)).
  - reflexivity.
  - intros d' [<- | []]. reflexivity.
  - reflexivity.
Defined.

Lemma attempt_truthy (fs : filesystem) (js : str -> option json) (exts : list str)
    (module d : str) (x : option str) :
  result (attempt fs js exts module d) = Ok x ->
  truthy x = match x with Some _ => true | None => false end.
Proof.
  destruct x as [g |]; [| reflexivity]. intros H.
  apply (@truthy_exists fs). exact (@attempt_some fs js exts _ _ H).
Qed.

Lemma load_node_modules_loop_same (fs : filesystem) (js : str -> option json)
    (exts : list str) (module : str) (A : M (option str)) (d0 : str) (dirs : list str) :
  (forall d, In d (d0 :: dirs) -> attempt fs js exts module d = A) ->
  result (load_node_modules_loop fs js exts module (d0 :: dirs)) = result A.
Proof.
  revert d0; induction dirs as [| d1 dirs IH]; intros d0 H;
    rewrite load_node_modules_loop_eq, result_bind;
    pose proof (H d0 (or_introl eq_refl)) as H0; rewrite H0;
    destruct (result A) as [x |] eqn:E; try reflexivity;
    assert (Ht : truthy x = match x with Some _ => true | None => false end)
      by (apply (@attempt_truthy fs js exts module d0); rewrite H0; exact E);
    rewrite Ht; destruct x as [g |]; try reflexivity.
  apply IH. intros d Hd. apply H. right; exact Hd.
Qed.

Lemma node_modules_paths_nonempty (start : str) :
  exists d dirs, node_modules_paths start = d :: dirs.
Proof.
  rewrite node_modules_paths_eq.
  destruct (normpath_shape start) as [k [cs [E [Hs [Hne _]]]]].
  rewrite (split_path_parts _ E Hs Hne).
  assert (Hlen : length (parts_of k cs) <> 0).
  { unfold parts_of. rewrite length_app. destruct cs; cbn; lia. }
  destruct (length (parts_of k cs)) as [| n]; [congruence |].
  rewrite rev_seq_S. cbn [map]. eauto.
Qed.

Lemma join_rooted (d rest : str) :
  posixpath.join d [posixpath.sepc :: rest] = posixpath.sepc :: rest.
Proof.
  unfold posixpath.join. cbn [fold_left]. unfold posixpath.join_step, posixpath.sep.
  rewrite startswith_cons_sep, startswith_nil. reflexivity.
Qed.

(** X6. A specifier rooted at [/] resolves as the file or directory it
    names, whatever the requesting directory: the result of
    [find_require_module] is that of trying the specifier itself, as it is
    written, as a file and then as a directory. *)
Theorem rooted_specifier_resolves_as_itself (fs : filesystem)
    (js : str -> option json) (exts : list str) (rest file_path : str) :
  result (find_require_module fs js exts (posixpath.sepc :: rest) file_path) =
  result (por (load_as_file fs exts (posixpath.sepc :: rest))
              (load_as_directory fs js exts (posixpath.sepc :: rest))).
Proof.
  unfold find_require_module. rewrite rooted_not_core, rooted_not_dotted.
  unfold load_node_modules.
  destruct (node_modules_paths_nonempty file_path) as [d [dirs ->]].
  apply load_node_modules_loop_same. intros d' _.
  unfold attempt. rewrite join_rooted. reflexivity.
Qed.

(** X7. Membership in [CORE_MODULES] is exact: a core name followed by a
    sub-path, such as [fs/promises], is not a core module, so
    [find_require_module] looks for it in the [node_modules]
    directories. *)
Theorem core_name_with_subpath_is_searched (fs : filesystem)
    (js : str -> option json) (exts : list str) (name rest file_path : str) :
  In name CORE_MODULES ->
  is_core (name ++ posixpath.sepc :: rest) = false
  /\ find_require_module fs js exts (name ++ posixpath.sepc :: rest) file_path =
     load_node_modules fs js exts (name ++ posixpath.sepc :: rest) file_path.
Proof.
  intros Hin.
  assert (Hc : is_core (name ++ posixpath.sepc :: rest) = false).
  { apply not_true_is_false. intros H. apply is_core_In in H.
    assert (Hns : forall c, In c CORE_MODULES -> NoSep c).
    { intros c Hc. unfold NoSep. intros Hsep.
      assert (Hb : forallb (fun c => negb (existsb (Ascii.eqb posixpath.sepc) c))
                     CORE_MODULES = true) by reflexivity.
      rewrite forallb_forall in Hb. specialize (Hb c Hc).
      apply negb_true_iff in Hb.
      assert (Ht : existsb (Ascii.eqb posixpath.sepc) c = true).
      { apply existsb_exists. exists posixpath.sepc. split; [exact Hsep |].
        apply Ascii.eqb_refl. }
      congruence. }
    apply (Hns _ H). apply in_elt. }
  split; [exact Hc |].
  unfold find_require_module. rewrite Hc.
  assert (Hd : startswith (name ++ posixpath.sepc :: rest) (lit ".") = false).
  { assert (Hb : forallb (fun c => negb (startswith c (lit "."))
                                   && negb (is_empty c)) CORE_MODULES = true)
      by reflexivity.
    rewrite forallb_forall in Hb. specialize (Hb name Hin).
    apply andb_true_iff in Hb. destruct Hb as [Hb Hne].
    apply negb_true_iff in Hb. destruct name as [| x name]; [discriminate |].
    cbn [app]. unfold lit in *. cbn [list_ascii_of_string startswith] in *.
    rewrite startswith_nil in *. exact Hb. }
  rewrite Hd. reflexivity.
Qed.

Lemma core_name_with_subpath_is_searched_witness :
  is_core (lit "fs" ++ posixpath.sepc :: lit "promises") = false
  /\ find_require_module fs_none json_of js_exts
       (lit "fs" ++ posixpath.sepc :: lit "promises") "/p" =
     load_node_modules fs_none json_of js_exts
       (lit "fs" ++ posixpath.sepc :: lit "promises") "/p".
Proof.
  apply (@core_name_with_subpath_is_searched fs_none json_of js_exts
           "fs" "promises" "/p").
  vm_compute. do 9 right. left. reflexivity.
Defined.

(* ------------------------------------------------------------------ *)
(** ** [find_module] and [find_import_module] *)

(** X8. [find_module] reads the variables of the window by subscript, so a
    missing one is a [KeyError]: without [file_path] it raises before any
    access to the file system; without [project_path] it raises as soon as
    the primary resolution has not given an existing file, whether or not
    alias roots are configured, and answers as usual when the primary
    resolution has given one. *)
Theorem find_module_missing_variable (fs : filesystem) (js : str -> option json)
    (exts : list str) (w : window) (module : str) :
  (ctx_file_path w = None ->
   find_module fs js exts w module = (Raise (KeyError "file_path"), []))
  /\ (forall fp m,
        ctx_file_path w = Some fp -> ctx_project_path w = None ->
        result (find_require_module fs js exts module fp) = Ok m ->
        (is_existing fs m = false ->
         result (find_module fs js exts w module) = Raise (KeyError "project_path"))
        /\ (is_existing fs m = true ->
            result (find_module fs js exts w module) = Ok m)).
Proof.
  split.
  - intros H. unfold find_module. rewrite H. reflexivity.
  - intros fp m Hfp Hpp Hm. unfold find_module. rewrite Hfp, Hpp.
    cbn [ctx_lookup]. rewrite bind_ret_l, result_bind, Hm, result_bind.
    split; intros Hex.
    + rewrite (returnIfFile_not_existing _ _ Hex).
      destruct (truthy m); cbn [result fst ret truthy negb orb];
        rewrite ?orb_true_r; rewrite result_bind; reflexivity.
    + destruct (returnIfFile_existing _ _ Hex) as [Hr Ht].
      rewrite Ht, Hr. cbn [result fst]. rewrite Ht. cbn [negb orb].
      rewrite bind_ret_l, Hr. reflexivity.
Qed.

Lemma find_module_missing_variable_witness :
  find_module fs_foo json_of js_exts window_no_file "./foo" =
    (Raise (KeyError "file_path"), [])
  /\ result (find_module fs_foo json_of js_exts window_no_project "lodash") =
     Raise (KeyError "project_path")
  /\ result (find_module fs_foo json_of js_exts window_no_project "./foo") =
     Ok (Some (lit "/p/foo")).
Proof.
  split; [| split].
  - apply (proj1 (find_module_missing_variable fs_foo json_of js_exts
                    window_no_file "./foo")).
    reflexivity.
  - apply (proj1 (proj2 (find_module_missing_variable fs_foo json_of js_exts
                           window_no_project "lodash") (lit "/p") None
                          eq_refl eq_refl eq_refl)).
    reflexivity.
  - apply (proj2 (proj2 (find_module_missing_variable fs_foo json_of js_exts
                           window_no_project "./foo") (lit "/p") (Some (lit "/p/foo"))
                          eq_refl eq_refl eq_refl)).
    reflexivity.
Defined.

Lemma find_module_some_exists (fs : filesystem)
    (js : str -> option json) (exts : list str) (w : window) (module p : str) :
  result (find_module fs js exts w module) = Ok (Some p) ->
  exists_file fs p = true.
Proof.
  unfold find_module. intros H.
  apply result_bind_ok in H. destruct H as [fp [_ H]].
  apply result_bind_ok in H. destruct H as [m [_ H]].
  apply result_bind_ok in H. destruct H as [is_file [_ H]].
  apply result_bind_ok in H. destruct H as [m' [_ H]].
  exact (result_returnIfFile_some _ _ H).
Qed.

(** X9. Whatever path [find_module] returns names an existing regular
    file: its last step is a probe of the path it is about to return. *)
Theorem find_module_returns_existing_files (fs : filesystem)
    (js : str -> option json) (exts : list str) (w : window) (module p : str) :
  result (find_module fs js exts w module) = Ok (Some p) ->
  exists_file fs p = true.
Proof. apply find_module_some_exists. Qed.

Lemma find_module_returns_existing_files_witness :
  exists_file fs_alias "/p/src/fs.js" = true.
Proof.
  apply (@find_module_returns_existing_files fs_alias json_of js_exts
           (window_of (Some [lit "src"])) "fs" "/p/src/fs.js").
  reflexivity.
Defined.

Lemma find_import_module_roots_no_exts (fs : filesystem) (module pp : str)
    (roots : list str) :
  find_import_module_roots fs module pp roots [] = (Ok None, []).
Proof.
  induction roots as [| root roots IH]; [reflexivity |].
  cbn [find_import_module_roots find_import_module_exts].
  rewrite bind_ret_l. exact IH.
Qed.

(** X10. The alias search tries the exact joined path only inside its
    loop over the extensions: with an empty list of extensions it probes
    nothing and finds nothing, whatever the roots; and it never raises. *)
Theorem alias_search_needs_an_extension (fs : filesystem) (module pp : str)
    (webpack_modules : option (list str)) :
  find_import_module fs module pp webpack_modules [] = (Ok None, [])
  /\ forall exts e,
       result (find_import_module fs module pp webpack_modules exts) <> Raise e.
Proof.
  split.
  - unfold find_import_module.
    destruct webpack_modules as [[| root roots] |]; try reflexivity.
    cbn [truthy_list negb]. apply find_import_module_roots_no_exts.
  - intros exts e. rewrite find_import_module_result. discriminate.
Qed.

(* ------------------------------------------------------------------ *)
(** ** The candidates of [node_modules_paths] and the segments of
       [split_path] *)

Lemma split_path_nonempty (P : str) : split_path P <> [].
Proof.
  destruct (normpath_shape P) as [k [cs [E [Hs [Hne _]]]]].
  rewrite (split_path_parts _ E Hs Hne). unfold parts_of.
  destruct k; destruct cs; discriminate.
Qed.

Lemma split_path_head_nonempty (P : str) :
  exists c r rest, split_path P = (c :: r) :: rest.
Proof.
  destruct (normpath_shape P) as [k [cs [E [Hs [Hne _]]]]].
  rewrite (split_path_parts _ E Hs Hne). unfold parts_of.
  destruct k as [| k].
  - destruct cs as [| c0 cs]; [destruct Hne; congruence |].
    inversion Hs as [| ? ? [Hc _] _]; subst.
    destruct c0 as [| c r]; [congruence |]. cbn. eauto.
  - cbn. eauto.
Qed.

Lemma join_all_snoc (parts : list str) (b : str) :
  parts <> [] ->
  posixpath.join_all (parts ++ [b]) =
  posixpath.join_step (posixpath.join_all parts) b.
Proof.
  destruct parts as [| a0 p]; [congruence |]. intros _.
  cbn [app posixpath.join_all]. unfold posixpath.join.
  rewrite fold_left_app. reflexivity.
Qed.

Lemma join_step_nonempty (p b : str) : p <> [] -> posixpath.join_step p b <> [].
Proof. intros H. exact (join_one_nonempty b H). Qed.

Lemma join_nonempty (a0 : str) (bs : list str) :
  a0 <> [] -> posixpath.join a0 bs <> [].
Proof.
  revert a0; induction bs as [| b bs IH]; intros a0 H; [exact H |].
  apply IH, join_step_nonempty, H.
Qed.

Lemma endswith_app (x y : str) : endswith (x ++ y) y = true.
Proof.
  unfold endswith. rewrite rev_app_distr.
  induction (rev y) as [| c r IH]; [apply startswith_nil |].
  cbn [app startswith]. rewrite Ascii.eqb_refl. exact IH.
Qed.

Lemma endswith_sep_inv (p : str) :
  endswith p posixpath.sep = true -> exists p', p = p' ++ posixpath.sep.
Proof.
  destruct p as [| c0 r0] using rev_ind; [discriminate |].
  rewrite endswith_snoc. intros H. apply Ascii.eqb_eq in H. subst.
  eauto.
Qed.

Lemma join_step_node_modules (p : str) :
  p <> [] ->
  endswith (posixpath.join_step p node_modules) (posixpath.sep ++ node_modules) = true.
Proof.
  intros Hp. unfold posixpath.join_step.
  change (startswith node_modules posixpath.sep) with false.
  apply is_empty_false in Hp. rewrite Hp. cbn [orb].
  destruct (endswith p posixpath.sep) eqn:E.
  - apply endswith_sep_inv in E. destruct E as [p' ->].
    rewrite <- app_assoc. apply endswith_app.
  - apply endswith_app.
Qed.

(** X11. The candidates of [node_modules_paths]: there is always at least
    one; the first is the normal form of the start joined with
    [node_modules]; and every candidate ends in [/node_modules]. *)
Theorem node_modules_candidates (start : str) :
  (exists rest,
     node_modules_paths start =
     posixpath.join (posixpath.normpath start) [node_modules] :: rest)
  /\ forall d, In d (node_modules_paths start) ->
       endswith d (posixpath.sep ++ node_modules) = true.
Proof.
  split.
  - rewrite node_modules_paths_eq.
    pose proof (split_path_nonempty start) as Hne.
    destruct (length (split_path start)) as [| n] eqn:El.
    { apply length_zero_iff_nil in El. congruence. }
    rewrite rev_seq_S. cbn [map]. eexists. f_equal.
    rewrite <- El, firstn_all, (join_all_snoc _ Hne), join_split_path.
    reflexivity.
  - intros d Hin. rewrite node_modules_paths_eq in Hin.
    apply in_map_iff in Hin. destruct Hin as [j [<- Hj]].
    apply in_rev, in_seq in Hj.
    destruct (split_path_head_nonempty start) as [c [r [rest E]]].
    rewrite E. destruct j as [| j]; [lia |]. cbn [firstn].
    rewrite join_all_snoc by discriminate.
    apply join_step_node_modules. cbn [posixpath.join_all].
    apply join_nonempty. discriminate.
Qed.


(** X13. From a start that is the root itself the candidate list repeats
    itself: when the normal form of the start is nothing but its leading
    slashes, [node_modules_paths] returns the same directory twice, and
    [load_node_modules] tries it twice. *)
Theorem root_candidate_is_listed_twice (start : str) (k : nat) :
  posixpath.normpath start = repeat posixpath.sepc (S k) ->
  node_modules_paths start =
  [ repeat posixpath.sepc (S k) ++ node_modules;
    repeat posixpath.sepc (S k) ++ node_modules ].
Proof.
  intros E. rewrite node_modules_paths_eq.
  assert (E' : posixpath.normpath start = pk (S k) []) by (rewrite pk_nil; exact E).
  rewrite (split_path_parts _ E' (Forall_nil _)) by (left; discriminate).
  unfold parts_of. cbn [app length seq rev map firstn posixpath.join_all].
  unfold posixpath.join. cbn [fold_left]. unfold posixpath.join_step.
  change (startswith node_modules posixpath.sep) with false.
  change (startswith [] posixpath.sep) with false.
  rewrite (endswith_root k), orb_true_r, app_nil_r.
  rewrite (endswith_root k), orb_true_r. reflexivity.
Qed.

Lemma root_candidate_is_listed_twice_witness :
  node_modules_paths "/a/.." = [lit "/node_modules"; lit "/node_modules"].
Proof.
  apply (@root_candidate_is_listed_twice "/a/.." 0). reflexivity.
Defined.

Lemma node_modules_candidates_witness :
  endswith (lit "/a/node_modules") (posixpath.sep ++ node_modules) = true.
Proof.
  apply (proj2 (node_modules_candidates "/a/b")).
  vm_compute. right. left. reflexivity.
Defined.

(* ------------------------------------------------------------------ *)
(** ** Opening a module *)

(** X14. [open_module_file] opens in the editor only a path that names an
    existing regular file; when [find_module] finds nothing it opens the
    page of the Node.js documentation named after the module, for any
    module, core or not, and makes no file-system access beyond those of
    [find_module]; and when [find_module] raises, nothing is opened. *)
Theorem open_module_file_actions (fs : filesystem) (js : str -> option json)
    (exts : list str) (reveal : bool) (w : window) (module : str) :
  (forall actions f,
     result (open_module_file fs js exts reveal w module) = Ok actions ->
     In (OpenFile f) actions -> exists_file fs f = true)
  /\ (result (find_module fs js exts w module) = Ok None ->
      open_module_file fs js exts reveal w module =
      (Ok [Browse (nodejs_api_url module)], trace (find_module fs js exts w module)))
  /\ (forall e, result (find_module fs js exts w module) = Raise e ->
                result (open_module_file fs js exts reveal w module) = Raise e).
Proof.
  split; [| split].
  - intros actions f H Hin. unfold open_module_file in H.
    apply result_bind_ok in H. destruct H as [file [Hfile H]].
    destruct file as [g |]; [| cbn in H; injection H as <-;
                                destruct Hin as [Hin | []]; discriminate].
    pose proof (find_module_some_exists _ _ _ _ _ Hfile) as Hex.
    rewrite (truthy_exists _ _ Hex) in H. cbn [result fst ret] in H.
    injection H as <-. destruct Hin as [Hin | Hin].
    + injection Hin as <-. exact Hex.
    + destruct reveal; [destruct Hin as [Hin | []]; discriminate | destruct Hin].
  - intros H. unfold open_module_file.
    destruct (find_module fs js exts w module) as [[r | e] t]; cbn in H;
      [| discriminate].
    injection H as ->. cbn. rewrite app_nil_r. reflexivity.
  - intros e H. unfold open_module_file. rewrite result_bind, H. reflexivity.
Qed.

Lemma open_module_file_actions_witness :
  exists_file fs_foo "/p/foo" = true
  /\ open_module_file fs_none json_of js_exts true (window_of None) "lodash" =
     (Ok [Browse (nodejs_api_url "lodash")],
      trace (find_module fs_none json_of js_exts (window_of None) "lodash"))
  /\ result (open_module_file fs_broken json_of js_exts true (window_of None) "./dir") =
     Raise JSONDecodeError.
Proof.
  split; [| split].
  - apply (proj1 (open_module_file_actions fs_foo json_of js_exts true
                    (window_of None) "./foo")
             [OpenFile (lit "/p/foo"); RevealInSideBar 100] (lit "/p/foo")).
    + reflexivity.
    + left. reflexivity.
  - apply (proj1 (proj2 (open_module_file_actions fs_none json_of js_exts true
                    (window_of None) "lodash"))).
    reflexivity.
  - apply (proj2 (proj2 (open_module_file_actions fs_broken json_of js_exts true
                    (window_of None) "./dir"))).
    reflexivity.
Defined.

Lemma startswith_app_self (x y : str) : startswith (x ++ y) x = true.
Proof.
  induction x as [| c x IH]; [apply startswith_nil |].
  cbn [app startswith]. rewrite Ascii.eqb_refl. exact IH.
Qed.

(** X15. The links of the popup: a target [npm_] followed by a package
    opens the npm page of exactly that package, and a target [help_]
    followed by an address opens exactly that address, neither with any
    access to the file system; every other target is handed to
    [open_module_file].  So the link of a module whose own name begins
    with [npm_] or [help_] never resolves the module. *)
Theorem anchor_targets (fs : filesystem) (js : str -> option json)
    (exts : list str) (reveal : bool) (w : window) :
  (forall package,
     _on_anchor_clicked fs js exts reveal w (lit "npm_" ++ package) =
     (Ok [Browse (npm_package_url package)], []))
  /\ (forall url,
       _on_anchor_clicked fs js exts reveal w (lit "help_" ++ url) =
       (Ok [Browse url], []))
  /\ (forall target,
       startswith target (lit "npm_") = false ->
       startswith target (lit "help_") = false ->
       _on_anchor_clicked fs js exts reveal w target =
       open_module_file fs js exts reveal w target).
Proof.
  split; [| split].
  - intros package. unfold _on_anchor_clicked.
    rewrite startswith_app_self, skipn_app_exact. reflexivity.
  - intros url. unfold _on_anchor_clicked.
    change (startswith (lit "help_" ++ url) (lit "npm_")) with false.
    rewrite startswith_app_self, skipn_app_exact. reflexivity.
  - intros target H1 H2. unfold _on_anchor_clicked. rewrite H1, H2. reflexivity.
Qed.

Lemma anchor_targets_witness :
  _on_anchor_clicked fs_foo json_of js_exts false (window_of None) "./foo" =
  open_module_file fs_foo json_of js_exts false (window_of None) "./foo".
Proof.
  apply (proj2 (proj2 (anchor_targets fs_foo json_of js_exts false (window_of None))));
    reflexivity.
Defined.

(* ------------------------------------------------------------------ *)
(** ** Folding the imports *)

(** X16. The fold command keeps one flag and flips it at every run, also
    at a run that found no import and folded nothing.  Two runs over the
    same imports, the first with the flag down, fold and then unfold the
    same region, from the start of the first import to the end of the
    last, and leave the flag down.  But after a run on a view without
    imports the flag is up, and the next run unfolds instead of folding. *)
Theorem fold_command_alternates (self : EsFoldImportsCommand.state)
    (regions : list EsFoldImportsCommand.region) :
  EsFoldImportsCommand.is_folded (fst (EsFoldImportsCommand.run self regions)) =
    negb (EsFoldImportsCommand.is_folded self)
  /\ (forall first rest,
       regions = first :: rest ->
       EsFoldImportsCommand.is_folded self = false ->
       let r := EsFoldImportsCommand.Region
                  (EsFoldImportsCommand.begin first)
                  (EsFoldImportsCommand.end_ (last regions first)) in
       let after := fst (EsFoldImportsCommand.run self regions) in
       snd (EsFoldImportsCommand.run self regions) = [EsFoldImportsCommand.Fold r]
       /\ snd (EsFoldImportsCommand.run after regions) = [EsFoldImportsCommand.Unfold r]
       /\ EsFoldImportsCommand.is_folded
            (fst (EsFoldImportsCommand.run after regions)) = false)
  /\ (forall first rest,
       regions = first :: rest ->
       EsFoldImportsCommand.is_folded self = false ->
       let after := fst (EsFoldImportsCommand.run self []) in
       snd (EsFoldImportsCommand.run self []) = []
       /\ snd (EsFoldImportsCommand.run after regions) =
          [EsFoldImportsCommand.Unfold
             (EsFoldImportsCommand.Region
                (EsFoldImportsCommand.begin first)
                (EsFoldImportsCommand.end_ (last regions first)))]).
Proof.
  split; [| split].
  - unfold EsFoldImportsCommand.run, EsFoldImportsCommand.switch. cbn [fst].
    destruct (EsFoldImportsCommand.is_folded self); reflexivity.
  - intros first rest -> Hf r after. subst r after.
    unfold EsFoldImportsCommand.run, EsFoldImportsCommand.switch,
      EsFoldImportsCommand.execute. cbn [fst snd]. rewrite Hf.
    cbn [EsFoldImportsCommand.is_folded]. repeat split.
  - intros first rest -> Hf after. subst after.
    unfold EsFoldImportsCommand.run, EsFoldImportsCommand.switch,
      EsFoldImportsCommand.execute. cbn [fst snd]. rewrite Hf.
    cbn [EsFoldImportsCommand.is_folded]. repeat split.
Qed.

Lemma fold_command_alternates_witness :
  snd (EsFoldImportsCommand.run None
         [EsFoldImportsCommand.Region 0 20; EsFoldImportsCommand.Region 21 40]) =
    [EsFoldImportsCommand.Fold (EsFoldImportsCommand.Region 0 40)]
  /\ snd (EsFoldImportsCommand.run (fst (EsFoldImportsCommand.run None []))
            [EsFoldImportsCommand.Region 0 20; EsFoldImportsCommand.Region 21 40]) =
     [EsFoldImportsCommand.Unfold (EsFoldImportsCommand.Region 0 40)].
Proof.
  split.
  - apply (proj1 (proj2 (fold_command_alternates None
             [EsFoldImportsCommand.Region 0 20; EsFoldImportsCommand.Region 21 40]))
             (EsFoldImportsCommand.Region 0 20) [EsFoldImportsCommand.Region 21 40]
             eq_refl eq_refl).
  - apply (proj2 (proj2 (fold_command_alternates None
             [EsFoldImportsCommand.Region 0 20; EsFoldImportsCommand.Region 21 40]))
             (EsFoldImportsCommand.Region 0 20) [EsFoldImportsCommand.Region 21 40]
             eq_refl eq_refl).
Defined.

(* ------------------------------------------------------------------ *)
(** ** More on the dispatch and on exceptions *)

Lemma split_on_snoc_sep (x : str) :
  split_on posixpath.sepc (x ++ [posixpath.sepc]) = split_on posixpath.sepc x ++ [[]].
Proof.
  induction x as [| y x IH].
  - cbn [app split_on]. rewrite Ascii.eqb_refl. reflexivity.
  - cbn [app split_on]. destruct (Ascii.eqb y posixpath.sepc).
    + rewrite IH. reflexivity.
    + rewrite IH. destruct (split_on posixpath.sepc x) as [| h t] eqn:E.
      * destruct x as [| z x]; [discriminate |]. cbn [split_on] in E.
        destruct (Ascii.eqb z posixpath.sepc); [discriminate |].
        destruct (split_on posixpath.sepc x); discriminate.
      * reflexivity.
Qed.

Lemma initial_slashes_snoc_sep (x : str) :
  ~ Forall (eq posixpath.sepc) x ->
  posixpath.initial_slashes (x ++ [posixpath.sepc]) = posixpath.initial_slashes x.
Proof.
  intros H. unfold posixpath.initial_slashes.
  change (posixpath.sep ++ posixpath.sep ++ posixpath.sep)
    with [posixpath.sepc; posixpath.sepc; posixpath.sepc].
  change (posixpath.sep ++ posixpath.sep) with [posixpath.sepc; posixpath.sepc].
  unfold posixpath.sep.
  destruct x as [| c1 x]; [exfalso; apply H; constructor |].
  cbn [app startswith]. destruct (Ascii.eqb c1 posixpath.sepc) eqn:E1;
    [| reflexivity].
  apply Ascii.eqb_eq in E1. subst c1. rewrite !startswith_nil. cbn [andb].
  destruct x as [| c2 x]; [exfalso; apply H; repeat constructor |].
  cbn [app startswith]. destruct (Ascii.eqb c2 posixpath.sepc) eqn:E2;
    [| reflexivity].
  apply Ascii.eqb_eq in E2. subst c2. rewrite !startswith_nil. cbn [andb].
  destruct x as [| c3 x]; [exfalso; apply H; repeat constructor |].
  cbn [app startswith]. rewrite !startswith_nil, !andb_true_r. reflexivity.
Qed.

Lemma normpath_snoc_sep (x : str) :
  ~ Forall (eq posixpath.sepc) x ->
  posixpath.normpath (x ++ [posixpath.sepc]) = posixpath.normpath x.
Proof.
  intros H. unfold posixpath.normpath.
  rewrite (initial_slashes_snoc_sep H), split_on_snoc_sep, fold_left_app.
  cbn [fold_left]. rewrite norm_step_skip.
  destruct x as [| c x]; [exfalso; apply H; constructor |]. reflexivity.
Qed.

Lemma dotted_not_core (m : str) : startswith m (lit ".") = true -> is_core m = false.
Proof.
  intros H. apply not_true_is_false. intros Hc. apply is_core_In in Hc.
  assert (Hb : forallb (fun c => negb (startswith c (lit "."))) CORE_MODULES = true)
    by reflexivity.
  rewrite forallb_forall in Hb. specialize (Hb m Hc). rewrite H in Hb. discriminate.
Qed.

Lemma dotted_head (m : str) :
  startswith m (lit ".") = true -> exists r, m = "."%char :: r.
Proof.
  destruct m as [| c r]; [discriminate |].
  unfold lit. cbn [list_ascii_of_string startswith]. intros H.
  apply andb_true_iff in H. destruct H as [H _]. apply Ascii.eqb_eq in H.
  subst. eauto.
Qed.

Lemma dot_starts (r : str) : startswith ("."%char :: r) (lit ".") = true.
Proof. unfold lit. cbn [list_ascii_of_string startswith]. apply startswith_nil. Qed.

(** X17. A trailing slash on a dotted specifier changes nothing: for a
    specifier that starts with [.], [find_require_module] does for the
    specifier followed by [/] exactly what it does for the specifier, so
    that [./dir/] can resolve to the file [dir.js]. *)
Theorem trailing_slash_is_ignored (fs : filesystem) (js : str -> option json)
    (exts : list str) (module file_path : str) :
  startswith module (lit ".") = true ->
  find_require_module fs js exts (module ++ posixpath.sep) file_path =
  find_require_module fs js exts module file_path.
Proof.
  intros Hdot. destruct (dotted_head _ Hdot) as [r ->].
  unfold find_require_module.
  rewrite (dotted_not_core _ Hdot).
  change (("."%char :: r) ++ posixpath.sep) with ("."%char :: (r ++ posixpath.sep)).
  rewrite (dotted_not_core _ (dot_starts (r ++ posixpath.sep))).
  rewrite !dot_starts.
  assert (E : posixpath.join file_path ["."%char :: (r ++ posixpath.sep)] =
              posixpath.join file_path ["."%char :: r] ++ [posixpath.sepc]).
  { unfold posixpath.join. cbn [fold_left]. unfold posixpath.join_step.
    change (startswith ("."%char :: (r ++ posixpath.sep)) posixpath.sep) with false.
    change (startswith ("."%char :: r) posixpath.sep) with false.
    destruct (_ || _); rewrite <- !app_assoc; reflexivity. }
  assert (Hn : ~ Forall (eq posixpath.sepc) (posixpath.join file_path ["."%char :: r])).
  { intros Hall. rewrite Forall_forall in Hall.
    assert (Hin : In "."%char (posixpath.join file_path ["."%char :: r])).
    { unfold posixpath.join. cbn [fold_left]. unfold posixpath.join_step.
      change (startswith ("."%char :: r) posixpath.sep) with false.
      destruct (_ || _); apply in_or_app; right;
        [left; reflexivity | right; left; reflexivity]. }
    specialize (Hall _ Hin). discriminate. }
  rewrite E, (normpath_snoc_sep Hn). reflexivity.
Qed.

Lemma trailing_slash_is_ignored_witness :
  find_require_module fs_foo json_of js_exts (lit "./foo" ++ posixpath.sep) "/p" =
  find_require_module fs_foo json_of js_exts "./foo" "/p"
  /\ result (find_require_module fs_foo json_of js_exts (lit "./foo" ++ posixpath.sep) "/p") =
     Ok (Some (lit "/p/foo")).
Proof.
  split; [| reflexivity].
  apply (@trailing_slash_is_ignored fs_foo json_of js_exts "./foo" "/p").
  reflexivity.
Defined.

Lemma find_import_module_exts_rooted (fs : filesystem) (module pp pp' rest : str)
    (es : list str) :
  find_import_module_exts fs module pp (posixpath.sepc :: rest) es =
  find_import_module_exts fs module pp' (posixpath.sepc :: rest) es.
Proof.
  induction es as [| e es IH]; [reflexivity |].
  cbn [find_import_module_exts]. rewrite !join_rooted, IH. reflexivity.
Qed.

(** X18. Alias roots that are absolute paths are used as they are: when
    every configured root starts with [/], [find_import_module] does the
    same, probe for probe, whatever the project path. *)
Theorem absolute_alias_roots_ignore_the_project (fs : filesystem)
    (module pp pp' : str) (roots exts : list str) :
  forallb absolute roots = true ->
  find_import_module fs module pp (Some roots) exts =
  find_import_module fs module pp' (Some roots) exts.
Proof.
  intros H. unfold find_import_module. destruct (negb _); [reflexivity |].
  induction roots as [| root roots IH]; [reflexivity |].
  cbn [forallb] in H. apply andb_true_iff in H. destruct H as [Hr Hrest].
  apply absolute_cons in Hr. destruct Hr as [rest ->].
  cbn [find_import_module_roots].
  rewrite (find_import_module_exts_rooted fs module pp pp'), (IH Hrest).
  reflexivity.
Qed.

Lemma absolute_alias_roots_ignore_the_project_witness :
  find_import_module fs_alias "fs" "/p" (Some [lit "/p/src"]) js_exts =
  find_import_module fs_alias "fs" "/elsewhere" (Some [lit "/p/src"]) js_exts.
Proof.
  apply (@absolute_alias_roots_ignore_the_project fs_alias "fs" "/p" "/elsewhere"
           [lit "/p/src"] js_exts).
  reflexivity.
Defined.

Section NoManifest.

Variable fs : filesystem.
Variable js : str -> option json.
Variable exts : list str.
Hypothesis no_manifest : forall p, fs_isfile fs (manifest_path p) = false.

Lemma load_as_directory_quiet (path : str) (e : exn) :
  result (load_as_directory fs js exts path) <> Raise e.
Proof.
  rewrite load_as_directory_result. unfold exists_file.
  rewrite no_manifest, andb_false_r. cbn [andb]. apply load_index_no_raise.
Qed.

Lemma attempt_quiet (path : str) (e : exn) :
  result (por (load_as_file fs exts path) (load_as_directory fs js exts path)) <> Raise e.
Proof.
  rewrite result_por, load_as_file_result.
  destruct (truthy _); [discriminate | apply load_as_directory_quiet].
Qed.

Lemma load_node_modules_loop_quiet (module : str) (dirs : list str) (e : exn) :
  result (load_node_modules_loop fs js exts module dirs) <> Raise e.
Proof.
  induction dirs as [| d dirs IH]; [discriminate |].
  cbn [load_node_modules_loop]. rewrite result_bind.
  destruct (result (por _ _)) as [x | e'] eqn:E.
  - destruct (truthy x); [discriminate | exact IH].
  - exfalso. exact (attempt_quiet _ E).
Qed.

Lemma find_require_module_quiet (module file_path : str) (e : exn) :
  result (find_require_module fs js exts module file_path) <> Raise e.
Proof.
  unfold find_require_module. destruct (is_core module); [discriminate |].
  destruct (startswith module (lit ".")).
  - apply attempt_quiet.
  - apply load_node_modules_loop_quiet.
Qed.

End NoManifest.

(** X19. The exceptions of the resolution all come from manifests: on a
    file system where no path names a [package.json] file,
    [find_require_module] never raises, and [find_module] raises only for
    a variable missing from the window. *)
Theorem no_manifest_no_exception (fs : filesystem) (js : str -> option json)
    (exts : list str) :
  (forall p, fs_isfile fs (manifest_path p) = false) ->
  (forall module file_path e,
     result (find_require_module fs js exts module file_path) <> Raise e)
  /\ (forall w module e,
        result (find_module fs js exts w module) = Raise e ->
        exists k, e = KeyError k).
Proof.
  intros H. split.
  - intros module file_path e. apply find_require_module_quiet, H.
  - intros w module e. unfold find_module. rewrite result_bind.
    destruct (ctx_file_path w) as [fp |]; cbn [ctx_lookup result fst ret raise];
      [| intros [= <-]; eauto].
    rewrite result_bind.
    destruct (result (find_require_module fs js exts module fp)) as [m | e'] eqn:Em;
      [| exfalso; exact (find_require_module_quiet fs js exts H _ _ Em)].
    rewrite result_bind.
    assert (Hrif : forall x, exists y, result (returnIfFile fs x None) = Ok y).
    { intros [q |]; [| eexists; reflexivity].
      rewrite result_returnIfFile_plain. eexists; reflexivity. }
    assert (Hprobe : exists y,
              result (if truthy m then returnIfFile fs m None else ret None) = Ok y).
    { destruct (truthy m); [apply Hrif | eexists; reflexivity]. }
    destruct Hprobe as [y ->]. rewrite result_bind.
    destruct (negb (truthy m) || negb (truthy y)).
    + rewrite result_bind.
      destruct (ctx_project_path w) as [pp |]; cbn [ctx_lookup result fst ret raise];
        [| intros [= <-]; eauto].
      rewrite find_import_module_result.
      destruct (Hrif (match webpack_resolve_modules w with
                      | Some roots =>
                          find (exists_file fs)
                            (alias_search module pp roots
                               (if truthy_list (webpack_resolve_extensions w)
                                then match webpack_resolve_extensions w with
                                     | Some l => l | None => [] end
                                else exts))
                      | None => None
                      end)) as [z Hz].
      rewrite Hz. discriminate.
    + cbn [result fst ret]. destruct (Hrif m) as [z Hz]. rewrite Hz. discriminate.
Qed.

Lemma no_manifest_no_exception_witness :
  result (find_require_module fs_none json_of js_exts "lodash" "/p") <>
  Raise JSONDecodeError.
Proof.
  apply (proj1 (@no_manifest_no_exception fs_none json_of js_exts
                  (fun p => eq_refl))).
Defined.

(* ------------------------------------------------------------------ *)
(** ** The cache of regions *)

Section Cache.

Import RequireEventListener.

Lemma cached_delete (self : state) (v : view) (key : nat) :
  cached (_delete_cached_regions self v) key =
  if Nat.eqb key (id v) then None else cached self key.
Proof.
  destruct self as [d |]; cbn; [| destruct (Nat.eqb key (id v)); reflexivity].
  destruct (d (id v)) eqn:E; cbn; unfold del.
  - reflexivity.
  - destruct (Nat.eqb key (id v)) eqn:Ek; [| reflexivity].
    apply Nat.eqb_eq in Ek. subst. exact E.
Qed.

Lemma cached_find (self : state) (v : view) (key : nat) :
  cached (fst (_find_regions self v)) key =
  if Nat.eqb key (id v)
  then Some (match cached self (id v) with Some r => r | None => scan v end)
  else cached self key.
Proof.
  unfold _find_regions.
  destruct self as [d |]; cbn [cached].
  - destruct (d (id v)) eqn:E; cbn [fst cached]; unfold set.
    + destruct (Nat.eqb key (id v)) eqn:Ek; [| reflexivity].
      apply Nat.eqb_eq in Ek. subst. exact E.
    + reflexivity.
  - unfold empty. cbn [fst cached]. unfold set.
    destruct (Nat.eqb key (id v)); reflexivity.
Qed.

Lemma find_regions_returns (self : state) (v : view) :
  snd (_find_regions self v) =
  match cached self (id v) with Some r => r | None => scan v end.
Proof.
  unfold _find_regions. destruct self as [d |]; cbn [cached].
  - destruct (d (id v)); reflexivity.
  - reflexivity.
Qed.

Lemma fst_underline (self : state) (right_file : bool) (v : view) :
  fst (_underline_regions self right_file v) =
  if right_file then fst (_find_regions self v) else self.
Proof.
  unfold _underline_regions. destruct right_file; cbn [negb]; [| reflexivity].
  destruct (_find_regions self v). reflexivity.
Qed.

Lemma fst_hover (self : state) (show right_file : bool) (v : view) (point : nat) :
  fst (on_hover self show right_file v point) =
  if negb show || negb right_file then self else fst (_find_regions self v).
Proof.
  unfold on_hover. destruct (negb show || negb right_file); [reflexivity |].
  destruct (_find_regions self v). reflexivity.
Qed.

Lemma fresh_step (self : state) (open : views) (ev : event) :
  fresh self open -> consistent open ev ->
  fresh (handle self ev) (views_after open ev).
Proof.
  intros Hf Hc key regions.
  assert (Hmod : forall v right_file,
            cached (fst (on_modified_async self right_file v)) key = Some regions ->
            exists v', (if Nat.eqb key (id v) then Some v else open key) = Some v'
                       /\ id v' = key /\ regions = scan v').
  { intros v right_file. unfold on_modified_async. rewrite fst_underline.
    destruct right_file.
    - rewrite cached_find, cached_delete, Nat.eqb_refl.
      destruct (Nat.eqb key (id v)) eqn:Ek.
      + intros [= <-]. apply Nat.eqb_eq in Ek. exists v. auto.
      + rewrite cached_delete, Ek. exact (Hf key regions).
    - rewrite cached_delete. destruct (Nat.eqb key (id v)); [discriminate | exact (Hf key regions)]. }
  destruct ev as [v right_file | v right_file | v point show right_file | v];
    cbn [handle views_after].
  - apply Hmod.
  - apply Hmod.
  - rewrite fst_hover. destruct (negb show || negb right_file); [exact (Hf key regions) |].
    rewrite cached_find.
    destruct (Nat.eqb key (id v)) eqn:Ek; [| exact (Hf key regions)].
    apply Nat.eqb_eq in Ek. subst key. cbn [consistent] in Hc.
    destruct (cached self (id v)) as [r |] eqn:Er.
    + intros [= <-]. exact (Hf _ _ Er).
    + intros [= <-]. exists v. auto.
  - unfold on_pre_close. rewrite cached_delete.
    destruct (Nat.eqb key (id v)); [discriminate | exact (Hf key regions)].
Qed.

Lemma fresh_all (evs : list event) (self : state) (open : views) :
  fresh self open -> all_consistent open evs ->
  fresh (fst (handle_all self open evs)) (snd (handle_all self open evs)).
Proof.
  revert self open; induction evs as [| ev evs IH]; intros self open Hf Hc.
  - exact Hf.
  - destruct Hc as [Hc Hrest]. cbn [handle_all].
    apply IH; [apply fresh_step; assumption | exact Hrest].
Qed.

End Cache.

(** X20. The cache of regions is never stale.  Starting from a new
    listener, after any sequence of loads, modifications, hovers and
    closes in which the editor hovers over views as they are, every list
    of regions the listener holds is the one computed from the view as it
    is now; so [_find_regions], asked about an open view as it is, returns
    exactly the regions of that view, cached or not. *)
Theorem region_cache_is_never_stale (evs : list RequireEventListener.event) :
  RequireEventListener.all_consistent (fun _ => None) evs ->
  let self := fst (RequireEventListener.handle_all None (fun _ => None) evs) in
  let open := snd (RequireEventListener.handle_all None (fun _ => None) evs) in
  RequireEventListener.fresh self open
  /\ forall v,
       open (RequireEventListener.id v) = Some v ->
       snd (RequireEventListener._find_regions self v) = RequireEventListener.scan v.
Proof.
  intros Hc self open.
  assert (Hf : RequireEventListener.fresh self open).
  { apply fresh_all; [| exact Hc]. intros key regions H. discriminate. }
  split; [exact Hf |]. intros v Hv. rewrite find_regions_returns.
  destruct (RequireEventListener.cached self (RequireEventListener.id v))
    as [r |] eqn:Er; [| reflexivity].
  destruct (Hf _ _ Er) as [v' [Hv' [_ ->]]]. congruence.
Qed.

Lemma region_cache_is_never_stale_witness :
  snd (RequireEventListener._find_regions
         (fst (RequireEventListener.handle_all None (fun _ => None) session))
         view_one_edited)
  = RequireEventListener.scan view_one_edited.
Proof.
  apply (proj2 (@region_cache_is_never_stale session
                  (conj I (conj eq_refl (conj I (conj eq_refl I)))))).
  reflexivity.
Defined.

(** X21. A view that is not on a file with one of the configured
    extensions is never underlined, and a modification of it leaves no
    regions cached for it: when [_assert_in_right_file] answers [False]
    (no window, no file name, or a file name that ends with none of the
    extensions; in particular whenever the list of extensions is empty),
    [on_modified_async] does not call [add_regions] and the listener
    holds nothing for the view afterwards, whatever it held before. *)
Theorem wrong_file_is_not_underlined
    (self : RequireEventListener.state) (window : option (option str))
    (exts : list str) (v : RequireEventListener.view) :
  RequireEventListener._assert_in_right_file window exts = false ->
  snd (RequireEventListener.on_modified_async self
         (RequireEventListener._assert_in_right_file window exts) v) = None
  /\ RequireEventListener.cached
       (fst (RequireEventListener.on_modified_async self
               (RequireEventListener._assert_in_right_file window exts) v))
       (RequireEventListener.id v) = None
  /\ RequireEventListener._assert_in_right_file window [] = false.
Proof.
  intros ->. unfold RequireEventListener.on_modified_async.
  cbn [RequireEventListener._underline_regions negb fst snd].
  rewrite cached_delete, Nat.eqb_refl.
  repeat split. destruct window as [[f |] |]; reflexivity.
Qed.

Lemma wrong_file_is_not_underlined_witness :
  snd (RequireEventListener.on_modified_async
         (fst (RequireEventListener.handle_all None (fun _ => None) session))
         (RequireEventListener._assert_in_right_file
            (Some (Some (lit "notes.txt"))) js_exts)
         view_one_edited) = None.
Proof.
  apply (proj1 (@wrong_file_is_not_underlined
                  (fst (RequireEventListener.handle_all None (fun _ => None) session))
                  (Some (Some (lit "notes.txt"))) js_exts view_one_edited
                  eq_refl)).
Defined.
